(** * ALSA playback loop: a shallow embedding of [alsa2.c] and [alsa.c]

    The repository holds two variants of one program: a sine generator
    feeding a select()-driven loop that writes frames to an ALSA PCM device.
    [alsa2.c] is the recovery-aware variant, [alsa.c] the earlier draft.
    Both are embedded below, each in a module of its own. *)

From Stdlib Require Import ZArith List Bool Lia String.
From Stdlib Require Import SpecFloat.
From stdpp Require Import base list gmap.
Import ListNotations.

Local Open Scope Z_scope.

(** ** C [float]: IEEE-754 binary32 on top of the Standard Library's
    [spec_float] (24 bits of precision, exponents below 128). *)
Module F32.

Definition prec : Z := 24.
Definition emax : Z := 128.

Definition float : Type := spec_float.

(** Integer to [float] conversion, rounding to nearest even. *)
Definition of_Z (z : Z) : float := binary_normalize prec emax z 0 false.

Definition zero : float := S754_zero false.
Definition one : float := of_Z 1.

(** [x + y] and [x - y]. C evaluates [phase += 1.0] in [double] and rounds
    the sum back to [float]; as 53 >= 2 * 24 + 2 that double rounding
    yields the correctly rounded binary32 sum, which is [SFadd]. *)
Definition add (x y : float) : float := SFadd prec emax x y.
Definition sub (x y : float) : float := SFsub prec emax x y.

(** [x >= y]; false as soon as one side is a NaN. *)
Definition geb (x y : float) : bool := SFleb y x.

(** [m * 2^k] on mantissas, for [k >= 0]. *)
Definition shl (m : positive) (k : Z) : positive :=
  match k with
  | Zpos p => Pos.iter xO m p
  | _ => m
  end.

Definition digits (m : positive) : Z := Zpos (digits2_pos m).

(** The shift register of the rounding procedure, holding an exact
    mantissa (no round bit, no sticky bit). *)
Definition rec0 (m : positive) : shr_record :=
  Build_shr_record (Zpos m) false false.

(** [2^24]: up to here every integer is a binary32 number. *)
Definition two24 : Z := 16777216.

End F32.

(** ** What the program sees of the outside world

    Constants of <errno.h>, <poll.h> and <alsa/pcm.h> (Linux values), the
    answers of the system and library calls made during one pass of the
    loop, and the record of the calls a pass makes. *)
Module Env.

Definition EINTR : Z := 4.
Definition EPIPE : Z := 32.
Definition ESTRPIPE : Z := 86.

Definition POLLIN : Z := 1.
Definition POLLOUT : Z := 4.
Definition POLLERR : Z := 8.

Inductive snd_pcm_state_t :=
| SND_PCM_STATE_OPEN
| SND_PCM_STATE_SETUP
| SND_PCM_STATE_PREPARED
| SND_PCM_STATE_RUNNING
| SND_PCM_STATE_XRUN
| SND_PCM_STATE_DRAINING
| SND_PCM_STATE_PAUSED
| SND_PCM_STATE_SUSPENDED
| SND_PCM_STATE_DISCONNECTED.

(** Every call below is made at most once per pass of the loop, so one
    record answers a whole pass. Return values are the [int] (or
    [snd_pcm_sframes_t]) the program stores; the answer of
    [snd_pcm_writei] may depend on the number of frames requested. *)
Record answers := {
  dev_select : Z;           (* select(...) *)
  dev_errno : Z;            (* errno after select *)
  dev_revents_ret : Z;      (* snd_pcm_poll_descriptors_revents(...) *)
  dev_revents : Z;          (* the revents it stores *)
  dev_state : snd_pcm_state_t;   (* snd_pcm_state(pcm_handle) *)
  dev_resume : Z;           (* snd_pcm_resume(pcm_handle) *)
  dev_prepare : Z;          (* snd_pcm_prepare(pcm_handle) *)
  dev_avail_update : Z;     (* snd_pcm_avail_update(pcm_handle) *)
  dev_writei : Z -> Z       (* snd_pcm_writei(pcm_handle, ptr, frames) *)
}.

(** The calls of a pass, in program order, with what they returned. A write
    is logged with the offset of its source pointer in the local buffer. *)
Inductive call :=
| Generate (frames : nat)
| Select (ret : Z)
| PollRevents (ret : Z)
| PcmState (st : snd_pcm_state_t)
| PcmResume (ret : Z)
| PcmPrepare (ret : Z)
| AvailUpdate (ret : Z)
| Writei (ptr : option Z) (frames : Z) (ret : Z).

(** A pass either reaches the end of the loop body (or a [continue]) with
    the new variables, or leaves the process through [err]/[errx] with
    exit status 1, the text before the colon and the reported code. *)
Inductive outcome (S : Type) :=
| Continue (s : S)
| Exit (msg : string) (code : Z).
Arguments Continue {S} s.
Arguments Exit {S} msg code.

Definition is_write (c : call) : bool :=
  match c with Writei _ _ _ => true | _ => false end.

Definition is_prepare (c : call) : bool :=
  match c with PcmPrepare _ => true | _ => false end.

Definition is_recovery (c : call) : bool :=
  match c with PcmPrepare _ | PcmResume _ => true | _ => false end.

(** [revents & POLLOUT] *)
Definition polled_out (d : answers) : bool :=
  negb (Z.land (dev_revents d) POLLOUT =? 0).

(** The wait returned, the translation of the events succeeded and the
    device asks for data: the pass enters [if (revents & POLLOUT)]. *)
Definition woken_writable (d : answers) : bool :=
  negb (dev_select d =? -1) && negb (dev_revents_ret d <? 0) && polled_out d.

(** Neither of the two states the loop recovers from before it queries the
    free space. *)
Definition state_normal (st : snd_pcm_state_t) : bool :=
  match st with
  | SND_PCM_STATE_XRUN | SND_PCM_STATE_SUSPENDED => false
  | _ => true
  end.

(** Frames handed out by the generator over a trace. *)
Fixpoint frames_generated (tr : list call) : Z :=
  match tr with
  | [] => 0
  | Generate n :: tr' => Z.of_nat n + frames_generated tr'
  | _ :: tr' => frames_generated tr'
  end.

(** Frames the device accepted over a trace. *)
Fixpoint frames_written (tr : list call) : Z :=
  match tr with
  | [] => 0
  | Writei _ _ ret :: tr' =>
      (if ret <? 0 then 0 else ret) + frames_written tr'
  | _ :: tr' => frames_written tr'
  end.

(** [p + n] on a pointer into the local buffer ([None] is NULL). *)
Definition ptr_add (p : option Z) (n : Z) : option Z :=
  match p with
  | Some k => Some (k + n)
  | None => None
  end.

(** Prefix a trace to the result of the rest of a pass. *)
Definition after {S : Type} (tr : list call) (r : list call * outcome S)
  : list call * outcome S :=
  let '(tr', o) := r in (tr ++ tr', o).

End Env.

(** ** alsa2.c *)
Module Alsa2.
Import Env.

Section Program.

(** [sin(phase * 2.0 * M_PI * frequency / rate)] stored into a [float]:
    libm and the [double] arithmetic around it stay abstract. *)
Variable sine_sample : F32.float -> Z -> F32.float.

(** The body of the generator's loop on [phase]. *)
Definition next_phase (rate : Z) (phase : F32.float) : F32.float :=
  let phase := F32.add phase F32.one in
  if F32.geb phase (F32.of_Z rate)
  then F32.sub phase (F32.of_Z rate)
  else phase.

(** [for (idx = ...; idx < buffer_size; ++idx)], with [todo] passes left. *)
Fixpoint generate_loop (todo idx : nat) (rate : Z)
         (buffer : list F32.float) (phase : F32.float)
  : list F32.float * F32.float :=
  match todo with
  | O => (buffer, phase)
  | S todo' =>
      generate_loop todo' (S idx) rate
        (<[idx := sine_sample phase rate]> buffer)
        (next_phase rate phase)
  end.

(** [generate_data(buffer, buffer_size, rate)]; the static [phase] is
    passed in and handed back. *)
Definition generate_data (buffer : list F32.float) (buffer_size : nat)
           (rate : Z) (phase : F32.float) : list F32.float * F32.float :=
  generate_loop buffer_size 0 rate buffer phase.

(** What the loop computes, read off its body: the phase after [n]
    samples, and the [n] samples themselves. *)
Fixpoint phase_after (n : nat) (rate : Z) (phase : F32.float) : F32.float :=
  match n with
  | O => phase
  | S n' => phase_after n' rate (next_phase rate phase)
  end.

Fixpoint block (n : nat) (rate : Z) (phase : F32.float) : list F32.float :=
  match n with
  | O => []
  | S n' => sine_sample phase rate :: block n' rate (next_phase rate phase)
  end.

(** The variables of [main] that live across passes of the loop, and the
    generator's static. *)
Record state := {
  phase : F32.float;
  local_data_buffer : list F32.float;
  local_data_ptr : option Z;
  frames_to_write_from_local_buffer : Z
}.

Variable local_data_buffer_size : nat.   (* 65536 in main *)
Variable rate : Z.                       (* as negotiated with the device *)

Definition init (stack : list F32.float) : state :=
  {| phase := F32.zero;
     local_data_buffer := stack;
     local_data_ptr := None;
     frames_to_write_from_local_buffer := 0 |}.

(** Top of the loop: generate a new block when the buffer is used up. *)
Definition refill (s : state) : list call * state :=
  if frames_to_write_from_local_buffer s =? 0 then
    let '(buffer, phase') :=
      generate_data (local_data_buffer s) local_data_buffer_size rate (phase s) in
    ([Generate local_data_buffer_size],
     {| phase := phase';
        local_data_buffer := buffer;
        local_data_ptr := Some 0;
        frames_to_write_from_local_buffer := Z.of_nat local_data_buffer_size |})
  else ([], s).

(** [ret = snd_pcm_prepare(...); if (ret < 0) errx(1, msg...); continue;] *)
Definition prepare_then_continue (d : answers) (msg : string) (s : state)
  : list call * outcome state :=
  let ret := dev_prepare d in
  ([PcmPrepare ret], if ret <? 0 then Exit msg ret else Continue s).

(** [ret = snd_pcm_resume(...); if (ret < 0 || ret == 0) { prepare }
    continue;] *)
Definition resume_then_continue (d : answers) (msg : string) (s : state)
  : list call * outcome state :=
  let ret := dev_resume d in
  if (ret <? 0) || (ret =? 0)
  then after [PcmResume ret] (prepare_then_continue d msg s)
  else ([PcmResume ret], Continue s).

(** The body of [if (frames_to_write_this_iter > 0)]. *)
Definition write_frames (d : answers) (frames_to_write_this_iter : Z)
           (s : state) : list call * outcome state :=
  let ret := dev_writei d frames_to_write_this_iter in
  after [Writei (local_data_ptr s) frames_to_write_this_iter ret]
    (if ret <? 0 then
       if ret =? - EPIPE then
         prepare_then_continue d "snd_pcm_prepare after writei XRUN" s
       else if ret =? - ESTRPIPE then
         resume_then_continue d "snd_pcm_prepare after writei SUSPENDED" s
       else ([], Exit "snd_pcm_writei" ret)
     else
       ([], Continue
              {| phase := phase s;
                 local_data_buffer := local_data_buffer s;
                 local_data_ptr := ptr_add (local_data_ptr s) ret;
                 frames_to_write_from_local_buffer :=
                   frames_to_write_from_local_buffer s - ret |})).

(** The body of [if (revents & POLLOUT)]. *)
Definition on_writable (d : answers) (s : state)
  : list call * outcome state :=
  let st := dev_state d in
  after [PcmState st]
    match st with
    | SND_PCM_STATE_XRUN =>
        prepare_then_continue d "snd_pcm_prepare after XRUN" s
    | SND_PCM_STATE_SUSPENDED =>
        resume_then_continue d "snd_pcm_prepare after SUSPENDED" s
    | _ =>
        let frames_available := dev_avail_update d in
        after [AvailUpdate frames_available]
          (if frames_available <? 0 then
             if frames_available =? - EPIPE then
               prepare_then_continue d
                 "snd_pcm_prepare after avail_update XRUN" s
             else ([], Exit "snd_pcm_avail_update" frames_available)
           else
             let frames_to_write_this_iter :=
               if frames_available >? frames_to_write_from_local_buffer s
               then frames_to_write_from_local_buffer s
               else frames_available in
             if frames_to_write_this_iter >? 0
             then write_frames d frames_to_write_this_iter s
             else ([], Continue s))
    end.

(** From the wait on: select, the translation of the descriptor sets
    and the dispatch on [revents]. ALSA_CHECK names the failed call as it
    is written in the source, each line break with its indentation read as
    one space. *)
Definition wait_and_dispatch (d : answers) (s : state)
  : list call * outcome state :=
  let ret := dev_select d in
  after [Select ret]
    (if ret =? -1 then
       if dev_errno d =? EINTR
       then ([], Continue s)
       else ([], Exit "select" (dev_errno d))
     else
       let errval := dev_revents_ret d in
       after [PollRevents errval]
         (if errval <? 0
          then ([], Exit "snd_pcm_poll_descriptors_revents( pcm_handle, fds, fd_count, &revents)" errval)
          else if Z.land (dev_revents d) POLLOUT =? 0
               then ([], Continue s)
               else on_writable d s)).

(** One pass of [for(;;)]. *)
Definition iteration (d : answers) (s : state)
  : list call * outcome state :=
  let '(tr, s') := refill s in
  after tr (wait_and_dispatch d s').

(** The loop against the answers of successive passes; it stops at the
    first exit. *)
Fixpoint run (ds : list answers) (s : state) : list call * outcome state :=
  match ds with
  | [] => ([], Continue s)
  | d :: ds' =>
      match iteration d s with
      | (tr, Continue s') => after tr (run ds' s')
      | (tr, Exit msg code) => (tr, Exit msg code)
      end
  end.

(** [frames_to_write_this_iter] of a pass that reaches the space query. *)
Definition frames_this_iter (d : answers) (s : state) : Z :=
  Z.min (dev_avail_update d) (frames_to_write_from_local_buffer s).

(** The pass, entered with [s] after the refill, takes one of the five
    branches that handle an underrun or a suspension. *)
Definition fault_classified (d : answers) (s : state) : bool :=
  woken_writable d &&
  match dev_state d with
  | SND_PCM_STATE_XRUN | SND_PCM_STATE_SUSPENDED => true
  | _ =>
      if dev_avail_update d <? 0 then dev_avail_update d =? - EPIPE
      else (0 <? frames_this_iter d s) &&
           ((dev_writei d (frames_this_iter d s) =? - EPIPE) ||
            (dev_writei d (frames_this_iter d s) =? - ESTRPIPE))
  end.

(** The device never takes more frames than it is given. *)
Definition takes_at_most_requested (d : answers) : Prop :=
  forall frames, 0 < frames -> dev_writei d frames <= frames.

(** How the code sorts the return value of each of its two calls. *)
Inductive fault := Success (frames : Z) | Underrun | Suspended | Fatal (code : Z).

(** lines 153-162, on [frames_available] *)
Definition classify_avail_update (ret : Z) : fault :=
  if ret <? 0 then
    if ret =? - EPIPE then Underrun else Fatal ret
  else Success ret.

(** lines 173-190, on [ret] of [snd_pcm_writei] *)
Definition classify_writei (ret : Z) : fault :=
  if ret <? 0 then
    if ret =? - EPIPE then Underrun
    else if ret =? - ESTRPIPE then Suspended
    else Fatal ret
  else Success ret.

End Program.

End Alsa2.

(** ** alsa.c, the earlier draft of the same loop *)
Module Alsa.
Import Env.

Section Program.

Variable sine_sample : F32.float -> Z -> F32.float.

(** [for (idx = ...; idx < buffer_size; ++idx)]: the phase only grows. *)
Fixpoint generate_loop (todo idx : nat) (rate : Z)
         (buffer : list F32.float) (phase : F32.float)
  : list F32.float * F32.float :=
  match todo with
  | O => (buffer, phase)
  | S todo' =>
      generate_loop todo' (S idx) rate
        (<[idx := sine_sample phase rate]> buffer)
        (F32.add phase F32.one)
  end.

Definition generate_data (buffer : list F32.float) (buffer_size : nat)
           (rate : Z) (phase : F32.float) : list F32.float * F32.float :=
  generate_loop buffer_size 0 rate buffer phase.

Record state := {
  phase : F32.float;
  data : list F32.float;
  data_len : Z;               (* size_t *)
  data_ptr : option Z
}.

Variable data_size : nat.     (* 65536 in main *)
Variable rate : Z.

Definition init (stack : list F32.float) : state :=
  {| phase := F32.zero; data := stack; data_len := 0; data_ptr := None |}.

(** [if (data_len == 0) { ... }], inside the POLLOUT branch. *)
Definition refill (s : state) : list call * state :=
  if data_len s =? 0 then
    let '(buffer, phase') := generate_data (data s) data_size rate (phase s) in
    ([Generate data_size],
     {| phase := phase'; data := buffer;
        data_len := Z.of_nat data_size; data_ptr := Some 0 |})
  else ([], s).

(** The body of [if (revents & POLLOUT)]. The write is given [data], the
    start of the buffer, and [data_len -= ret] is unsigned 64-bit. *)
Definition on_writable (d : answers) (s : state)
  : list call * outcome state :=
  let '(tr, s) := refill s in
  let ret := dev_writei d (data_len s) in
  after (tr ++ [Writei (Some 0) (data_len s) ret])
    (if ret <? 0
     then ([], Exit "snd_pcm_writei" ret)
     else ([], Continue
                 {| phase := phase s; data := data s;
                    data_len := (data_len s - ret) mod 2 ^ 64;
                    data_ptr := ptr_add (data_ptr s) ret |})).

(** One pass of [for(;;)]. *)
Definition iteration (d : answers) (s : state)
  : list call * outcome state :=
  let ret := dev_select d in
  after [Select ret]
    (if ret =? -1 then ([], Exit "select" (dev_errno d))
     else
       let errval := dev_revents_ret d in
       after [PollRevents errval]
         (if errval <? 0
          then ([], Exit "snd_pcm_poll_descriptors_revents( pcm_handle, fds, fd_count, &revents)" errval)
          else if Z.land (dev_revents d) POLLOUT =? 0
               then ([], Continue s)
               else on_writable d s)).

End Program.

End Alsa.

(** ** Concrete devices and inputs *)
Module Scenario.
Import Env.

(** A stand-in waveform: the sample is the phase itself. *)
Definition ramp (phase : F32.float) (rate : Z) : F32.float := phase.

Definition silence (n : nat) : list F32.float := repeat F32.zero n.

(** The device asks for data, is running, has room for [avail] frames and
    takes every frame it is given. *)
Definition writable (avail : Z) : answers :=
  {| dev_select := 1; dev_errno := 0; dev_revents_ret := 0;
     dev_revents := POLLOUT; dev_state := SND_PCM_STATE_RUNNING;
     dev_resume := 0; dev_prepare := 0;
     dev_avail_update := avail; dev_writei := fun frames => frames |}.

(** As [writable], but the device takes [taken] frames whatever it is given. *)
Definition short_write (avail taken : Z) : answers :=
  {| dev_select := 1; dev_errno := 0; dev_revents_ret := 0;
     dev_revents := POLLOUT; dev_state := SND_PCM_STATE_RUNNING;
     dev_resume := 0; dev_prepare := 0;
     dev_avail_update := avail; dev_writei := fun _ => taken |}.

(** Only POLLERR is reported. *)
Definition not_writable : answers :=
  {| dev_select := 1; dev_errno := 0; dev_revents_ret := 0;
     dev_revents := POLLERR; dev_state := SND_PCM_STATE_RUNNING;
     dev_resume := 0; dev_prepare := 0;
     dev_avail_update := 2; dev_writei := fun frames => frames |}.

(** select() is interrupted by a signal. *)
Definition interrupted : answers :=
  {| dev_select := -1; dev_errno := EINTR; dev_revents_ret := 0;
     dev_revents := POLLOUT; dev_state := SND_PCM_STATE_RUNNING;
     dev_resume := 0; dev_prepare := 0;
     dev_avail_update := 2; dev_writei := fun frames => frames |}.

(** The device is found suspended by snd_pcm_state and cannot resume. *)
Definition suspended_state : answers :=
  {| dev_select := 1; dev_errno := 0; dev_revents_ret := 0;
     dev_revents := POLLOUT; dev_state := SND_PCM_STATE_SUSPENDED;
     dev_resume := 0; dev_prepare := 0;
     dev_avail_update := 2; dev_writei := fun frames => frames |}.

(** The space query answers [avail]; a write answers [w]. *)
Definition faulty (avail w : Z) : answers :=
  {| dev_select := 1; dev_errno := 0; dev_revents_ret := 0;
     dev_revents := POLLOUT; dev_state := SND_PCM_STATE_RUNNING;
     dev_resume := 0; dev_prepare := 0;
     dev_avail_update := avail; dev_writei := fun _ => w |}.

End Scenario.

(** ** The frames a write hands to the device

    snd_pcm_writei is given a pointer into the local buffer and a count and
    answers how many frames it took: the frames from the pointer on. *)
Module Stream.
Import Env.

(** [frames] frames of [buffer] from [ptr] on. *)
Definition window (buffer : list F32.float) (ptr : option Z) (frames : Z)
  : list F32.float :=
  match ptr with
  | Some off => take (Z.to_nat frames) (drop (Z.to_nat off) buffer)
  | None => []
  end.

(** What a logged call handed over, the buffer holding [buffer]. *)
Definition taken (buffer : list F32.float) (c : call) : list F32.float :=
  match c with
  | Writei ptr _ ret => if ret <? 0 then [] else window buffer ptr ret
  | _ => []
  end.

(** What a logged call returned ([None] where the program keeps no
    return code). *)
Definition returned (c : call) : option Z :=
  match c with
  | Generate _ | PcmState _ => None
  | Select ret | PollRevents ret | PcmResume ret | PcmPrepare ret
  | AvailUpdate ret | Writei _ _ ret => Some ret
  end.

(** A write of alsa2.c that stays inside a buffer of [size] frames. *)
Definition write_in_bounds (size : nat) (c : call) : Prop :=
  match c with
  | Writei ptr frames ret =>
      exists off, ptr = Some off /\ 0 <= off /\ 0 < frames
                  /\ off + frames <= Z.of_nat size
  | _ => True
  end.

Section Alsa2.

Variable sine_sample : F32.float -> Z -> F32.float.
Variable local_data_buffer_size : nat.
Variable rate : Z.

(** The frames the device took during one pass of alsa2.c's loop. *)
Definition pass_sent (d : answers) (s : Alsa2.state) : list F32.float :=
  flat_map
    (taken (Alsa2.local_data_buffer
              (snd (Alsa2.refill sine_sample local_data_buffer_size rate s))))
    (fst (Alsa2.iteration sine_sample local_data_buffer_size rate d s)).

(** ... and during the passes of a run. *)
Fixpoint run_sent (ds : list answers) (s : Alsa2.state) : list F32.float :=
  match ds with
  | [] => []
  | d :: ds' =>
      pass_sent d s ++
      match snd (Alsa2.iteration sine_sample local_data_buffer_size rate d s) with
      | Continue s' => run_sent ds' s'
      | Exit _ _ => []
      end
  end.

(** The variables after a write that took [ret] frames, lines 193-194. *)
Definition advanced (s : Alsa2.state) (ret : Z) : Alsa2.state :=
  {| Alsa2.phase := Alsa2.phase s;
     Alsa2.local_data_buffer := Alsa2.local_data_buffer s;
     Alsa2.local_data_ptr := ptr_add (Alsa2.local_data_ptr s) ret;
     Alsa2.frames_to_write_from_local_buffer :=
       Alsa2.frames_to_write_from_local_buffer s - ret |}.

(** The frames generated and not yet taken. *)
Definition pending (s : Alsa2.state) : list F32.float :=
  window (Alsa2.local_data_buffer s) (Alsa2.local_data_ptr s)
    (Alsa2.frames_to_write_from_local_buffer s).

(** The cursor of alsa2.c sits in a buffer of the declared size, as far
    from its end as frames are pending. *)
Definition cursor_ok (s : Alsa2.state) : Prop :=
  length (Alsa2.local_data_buffer s) = local_data_buffer_size
  /\ 0 <= Alsa2.frames_to_write_from_local_buffer s
       <= Z.of_nat local_data_buffer_size
  /\ (Alsa2.frames_to_write_from_local_buffer s <> 0 ->
      Alsa2.local_data_ptr s
      = Some (Z.of_nat local_data_buffer_size
              - Alsa2.frames_to_write_from_local_buffer s)).

End Alsa2.

Section Alsa.

Variable sine_sample : F32.float -> Z -> F32.float.
Variable data_size : nat.
Variable rate : Z.

(** The loop of alsa.c against the answers of successive passes. *)
Fixpoint draft_run (ds : list answers) (s : Alsa.state)
  : list call * outcome Alsa.state :=
  match ds with
  | [] => ([], Continue s)
  | d :: ds' =>
      match Alsa.iteration sine_sample data_size rate d s with
      | (tr, Continue s') => after tr (draft_run ds' s')
      | (tr, Exit msg code) => (tr, Exit msg code)
      end
  end.

(** The frames the device took during one pass of alsa.c's loop. *)
Definition draft_pass_sent (d : answers) (s : Alsa.state) : list F32.float :=
  flat_map
    (taken (Alsa.data (snd (Alsa.refill sine_sample data_size rate s))))
    (fst (Alsa.iteration sine_sample data_size rate d s)).

(** The samples alsa.c's generator writes, read off its loop. *)
Fixpoint draft_block (n : nat) (rate : Z) (phase : F32.float)
  : list F32.float :=
  match n with
  | O => []
  | S n' => sine_sample phase rate :: draft_block n' rate (F32.add phase F32.one)
  end.

End Alsa.

End Stream.

(** ** select() in place of poll(): lines 88-117 of alsa2.c (74-98 of
    alsa.c)

    The descriptors of the PCM are turned into the three sets of select(),
    and the sets select() leaves are turned back into [revents]. An
    [fd_set] is a set of descriptors; FD_SET is defined for descriptors
    from 0 to FD_SETSIZE - 1 only. *)
Module Poll.
Import Env.

Definition FD_SETSIZE : Z := 1024.

Record pollfd := { fd : Z; events : Z; revents : Z }.

Record fd_sets := { rfd : gset Z; wfd : gset Z; xfd : gset Z }.

(** The three FD_ZERO. *)
Definition zeroed : fd_sets := {| rfd := empty; wfd := empty; xfd := empty |}.

Definition FD_SET (fd : Z) (set : gset Z) : gset Z := union (singleton fd) set.

Definition FD_ISSET (fd : Z) (set : gset Z) : bool := bool_decide (elem_of fd set).

(** The body of the first loop, on the sets and [max_fd]. *)
Definition mark (acc : fd_sets * Z) (p : pollfd) : fd_sets * Z :=
  let '(sets, max_fd) := acc in
  ({| rfd := if Z.land (events p) POLLIN =? 0
             then rfd sets else FD_SET (fd p) (rfd sets);
      wfd := if Z.land (events p) POLLOUT =? 0
             then wfd sets else FD_SET (fd p) (wfd sets);
      xfd := if Z.land (events p) POLLERR =? 0
             then xfd sets else FD_SET (fd p) (xfd sets) |},
   if negb (events p =? 0) && (fd p >? max_fd) then fd p else max_fd).

(** The first loop: the sets passed to select() and [max_fd]. *)
Definition build_fd_sets (fds : list pollfd) : fd_sets * Z :=
  fold_left mark fds (zeroed, -1).

(** The body of the second loop. *)
Definition answer (sets : fd_sets) (p : pollfd) : pollfd :=
  {| fd := fd p;
     events := events p;
     revents :=
       Z.lor (Z.lor (if FD_ISSET (fd p) (rfd sets) then POLLIN else 0)
                    (if FD_ISSET (fd p) (wfd sets) then POLLOUT else 0))
             (if FD_ISSET (fd p) (xfd sets) then POLLERR else 0) |}.

(** The second loop, on the sets as select() left them. *)
Definition set_revents (sets : fd_sets) (fds : list pollfd) : list pollfd :=
  map (answer sets) fds.

(** select() only removes descriptors from the sets it is given. *)
Definition left_by_select (given left : fd_sets) : Prop :=
  subseteq (rfd left) (rfd given) /\ subseteq (wfd left) (wfd given)
  /\ subseteq (xfd left) (xfd given).

Definition in_range (fds : list pollfd) : Prop :=
  Forall (fun p => 0 <= fd p < FD_SETSIZE) fds.

End Poll.

(** ** More concrete inputs *)
Module Examples.
Import Env.

(** Two descriptors, the first asking for POLLOUT and POLLERR, the second
    for POLLIN. *)
Definition two_fds : list Poll.pollfd :=
  [ {| Poll.fd := 3; Poll.events := 12; Poll.revents := 0 |};
    {| Poll.fd := 5; Poll.events := 1; Poll.revents := 0 |} ].

(** select() reports descriptor 3 as writable, and nothing else. *)
Definition only_3_writable : Poll.fd_sets :=
  {| Poll.rfd := empty; Poll.wfd := singleton 3; Poll.xfd := empty |}.

(** Passes of a loop: a short write, an idle pass, an underrun reported by
    the space query, an interrupted wait, a full write. *)
Definition mixed_run : list answers :=
  [Scenario.short_write 3 1; Scenario.not_writable;
   Scenario.faulty (- EPIPE) 0; Scenario.interrupted; Scenario.writable 9].

End Examples.

(** * Facts *)

(** ** binary32 on small integers

    Integers up to [2^24] convert to binary32 without rounding, and on them
    [+ 1.0f], [>=] and [x - x] are the integer operations. *)
Module F32Facts.
Import F32.

Lemma iter_xO_succ m p : Pos.iter xO m (Pos.succ p) = xO (Pos.iter xO m p).
Proof. apply Pos.iter_succ. Qed.

Lemma Zpos_shl m k : 0 <= k -> Zpos (shl m k) = Zpos m * 2 ^ k.
Proof.
  destruct k as [|p|p]; intros Hk; simpl shl; [lia| |lia].
  induction p using Pos.peano_ind.
  - cbn. lia.
  - rewrite iter_xO_succ, Pos2Z.inj_xO, IHp by lia.
    rewrite Pos2Z.inj_succ, Z.pow_succ_r by lia. ring.
Qed.

Lemma digits_shl m k : 0 <= k -> digits (shl m k) = digits m + k.
Proof.
  destruct k as [|p|p]; intros Hk; simpl shl; [lia| |lia].
  unfold digits. induction p using Pos.peano_ind.
  - simpl. lia.
  - rewrite iter_xO_succ. simpl digits2_pos. rewrite Pos2Z.inj_succ, IHp by lia. lia.
Qed.

Lemma digits_bounds m : 2 ^ (digits m - 1) <= Zpos m < 2 ^ digits m.
Proof.
  unfold digits. induction m as [m IH|m IH|]; simpl digits2_pos.
  - rewrite Pos2Z.inj_succ, (Pos2Z.inj_xI m).
    replace (Z.succ (Zpos (digits2_pos m)) - 1) with (Z.succ (Zpos (digits2_pos m) - 1)) by lia.
    rewrite !Z.pow_succ_r by lia.
    generalize dependent (2 ^ (Zpos (digits2_pos m) - 1)). generalize (2 ^ Zpos (digits2_pos m)). lia.
  - rewrite Pos2Z.inj_succ, (Pos2Z.inj_xO m).
    replace (Z.succ (Zpos (digits2_pos m)) - 1) with (Z.succ (Zpos (digits2_pos m) - 1)) by lia.
    rewrite !Z.pow_succ_r by lia.
    generalize dependent (2 ^ (Zpos (digits2_pos m) - 1)). generalize (2 ^ Zpos (digits2_pos m)). lia.
  - simpl. lia.
Qed.

Lemma digits_pos m : 1 <= digits m.
Proof. unfold digits. lia. Qed.

Lemma digits_le m d : 0 <= d -> Zpos m < 2 ^ d -> digits m <= d.
Proof.
  intros Hd Hm. destruct (Z_le_gt_dec (digits m) d) as [|Hgt]; [assumption|].
  pose proof (digits_bounds m) as [Hlo _].
  assert (2 ^ d <= 2 ^ (digits m - 1)) by (apply Z.pow_le_mono_r; lia). lia.
Qed.

Lemma digits_mono m n : (m <= n)%positive -> digits m <= digits n.
Proof.
  intros Hmn. apply digits_le; [pose proof (digits_pos n); lia|].
  pose proof (digits_bounds n). lia.
Qed.

Lemma shl_shl m a b : 0 <= a -> 0 <= b -> shl (shl m a) b = shl m (a + b).
Proof.
  intros Ha Hb. apply Pos2Z.inj. rewrite !Zpos_shl by lia.
  rewrite Z.pow_add_r by lia. ring.
Qed.

Lemma shr_1_xO a : shr_1 (rec0 (xO a)) = rec0 a.
Proof. reflexivity. Qed.

Lemma iter_pos_shr_1 p : forall a, SpecFloat.iter_pos shr_1 p (rec0 (Pos.iter xO a p)) = rec0 a.
Proof.
  induction p as [p IH|p IH|]; intros a; cbn [SpecFloat.iter_pos Pos.iter].
  - rewrite shr_1_xO, !IH. reflexivity.
  - rewrite !IH. reflexivity.
  - apply shr_1_xO.
Qed.

Lemma round_aux_canonical s m e :
  digits m = 24 -> -149 <= e <= 104 ->
  binary_round_aux prec emax s (Zpos m) e loc_Exact = S754_finite s m e.
Proof.
  intros Hd He. unfold binary_round_aux, shr_fexp, fexp, emin, prec, emax.
  simpl Zdigits2. simpl shr_record_of_loc. fold (digits m). rewrite Hd.
  replace (Z.max (24 + e - 24) (3 - 128 - 24) - e) with 0 by lia.
  simpl. fold (digits m). rewrite Hd.
  replace (Z.max (24 + e - 24) (3 - 128 - 24) - e) with 0 by lia.
  simpl. replace (e <=? 128 - 24) with true by (symmetry; apply Z.leb_le; lia).
  reflexivity.
Qed.

Lemma shl_align_shl mx ex ex' :
  shl_align mx ex ex' = (shl mx (ex - ex'), Z.min ex ex').
Proof.
  unfold shl_align, shl.
  destruct (ex' - ex) as [|d|d] eqn:E.
  - replace (ex - ex') with 0 by lia. f_equal. lia.
  - replace (ex - ex') with (Zneg d) by lia. f_equal. lia.
  - replace (ex - ex') with (Zpos d) by lia. f_equal. lia.
Qed.

(** A mantissa of at most 24 bits is shifted up to exactly 24 bits. *)
Lemma binary_round_small s m e :
  digits m <= 24 -> -149 <= e + digits m - 24 <= 104 ->
  binary_round prec emax s m e
  = S754_finite s (shl m (24 - digits m)) (e + digits m - 24).
Proof.
  intros Hd He. unfold binary_round. fold (digits m).
  unfold fexp, emin, prec, emax.
  replace (Z.max (digits m + e - 24) (3 - 128 - 24)) with (e + digits m - 24) by lia.
  rewrite shl_align_shl.
  replace (e - (e + digits m - 24)) with (24 - digits m) by lia.
  replace (Z.min e (e + digits m - 24)) with (e + digits m - 24) by lia.
  apply round_aux_canonical; [|lia].
  rewrite digits_shl by lia. lia.
Qed.

(** A 24-bit mantissa followed by [j] zero bits is rounded exactly. *)
Lemma binary_round_exact s a j e :
  digits a = 24 -> 0 <= j -> -149 <= e + j <= 104 ->
  binary_round prec emax s (shl a j) e = S754_finite s a (e + j).
Proof.
  intros Hd Hj He. destruct j as [|p|p]; [| |lia].
  - simpl shl. rewrite binary_round_small by (rewrite ?Hd; lia).
    rewrite Hd. simpl shl. f_equal. lia.
  - unfold binary_round. fold (digits (shl a (Zpos p))).
    rewrite digits_shl, Hd by lia.
    unfold fexp, emin, prec, emax.
    replace (Z.max (24 + Zpos p + e - 24) (3 - 128 - 24)) with (e + Zpos p) by lia.
    rewrite shl_align_shl.
    replace (e - (e + Zpos p)) with (Zneg p) by lia.
    replace (Z.min e (e + Zpos p)) with e by lia.
    simpl shl at 1.
    unfold binary_round_aux, shr_fexp. simpl Zdigits2.
    change (Zpos (digits2_pos (Pos.iter xO a p))) with (digits (shl a (Zpos p))).
    rewrite digits_shl, Hd by lia.
    unfold fexp, emin, prec, emax.
    replace (Z.max (24 + Zpos p + e - 24) (3 - 128 - 24) - e) with (Zpos p) by lia.
    simpl shr_record_of_loc. unfold shr. simpl shl.
    change (Build_shr_record (Zpos (Pos.iter xO a p)) false false) with (rec0 (Pos.iter xO a p)).
    rewrite iter_pos_shr_1. simpl round_nearest_even. 
    simpl Zdigits2. fold (digits a). rewrite Hd.
    replace (Z.max (24 + (e + Zpos p) - 24) (3 - 128 - 24) - (e + Zpos p)) with 0 by lia.
    simpl. replace (e + Zpos p <=? 128 - 24) with true by (symmetry; apply Z.leb_le; lia).
    reflexivity.
Qed.

Lemma of_Z_small n :
  Zpos n < two24 ->
  of_Z (Zpos n) = S754_finite false (shl n (24 - digits n)) (digits n - 24).
Proof.
  intros Hn. unfold of_Z, binary_normalize.
  assert (digits n <= 24) by (apply digits_le; [lia|exact Hn]).
  pose proof (digits_pos n).
  rewrite binary_round_small by lia. f_equal.
Qed.

Lemma of_Z_two24 : of_Z two24 = S754_finite false 8388608 1.
Proof. reflexivity. Qed.

Lemma Zpos_add_shl n k :
  0 <= k -> Zpos (shl n k) + Zpos (shl 1 k) = Zpos (shl (n + 1) k).
Proof. intros Hk. rewrite !Zpos_shl by lia. lia. Qed.

Lemma add_one_pos n :
  Zpos n < two24 -> add (of_Z (Zpos n)) one = of_Z (Zpos n + 1).
Proof.
  intros Hn. rewrite of_Z_small by exact Hn.
  assert (Hd : digits n <= 24) by (apply digits_le; [lia|exact Hn]).
  pose proof (digits_pos n) as Hd1.
  change one with (S754_finite false (shl 1 23) (-23)).
  unfold add, SFadd. rewrite !shl_align_shl.
  replace (Z.min (digits n - 24) (-23)) with (-23) by lia.
  cbn [fst cond_Zopp].
  rewrite shl_shl by lia.
  replace (24 - digits n + (digits n - 24 - -23)) with 23 by lia.
  replace (-23 - -23) with 0 by lia.
  change (shl (shl 1 23) 0) with (shl 1 23).
  rewrite Zpos_add_shl by lia. cbn [binary_normalize].
  change (Zpos n + 1) with (Zpos (n + 1)).
  destruct (Z.eq_dec (Zpos (n + 1)) two24) as [E|E].
  - injection E as E. rewrite E. reflexivity.
  - assert (Hn1 : Zpos (n + 1) < two24) by lia.
    rewrite of_Z_small by exact Hn1.
    assert (Hd' : digits (n + 1) <= 24) by (apply digits_le; [lia|exact Hn1]).
    pose proof (digits_pos (n + 1)) as Hd1'.
    replace (shl (n + 1) 23)
      with (shl (shl (n + 1) (24 - digits (n + 1))) (digits (n + 1) - 1))
      by (rewrite shl_shl by lia; f_equal; lia).
    rewrite binary_round_exact; [f_equal; lia| |lia|lia].
    rewrite digits_shl by lia. lia.
Qed.

(** Below [2^24] adding [1.0f] is exact. *)
Lemma add_one z : 0 <= z < two24 -> add (of_Z z) one = of_Z (z + 1).
Proof.
  intros [Hz Hlt]. destruct z as [|n|n]; [reflexivity| |lia].
  apply add_one_pos. exact Hlt.
Qed.

(** At [2^24] the sum is a tie and rounds back to the even mantissa. *)
Lemma add_one_two24 : add (of_Z two24) one = of_Z two24.
Proof. reflexivity. Qed.

Lemma compare_small m n :
  Zpos m < two24 -> Zpos n < two24 ->
  SFcompare (of_Z (Zpos m)) (of_Z (Zpos n)) = Some (Zpos m ?= Zpos n).
Proof.
  intros Hm Hn. rewrite !of_Z_small by assumption. cbn [SFcompare].
  assert (digits m <= 24) by (apply digits_le; [lia|exact Hm]).
  assert (digits n <= 24) by (apply digits_le; [lia|exact Hn]).
  pose proof (digits_bounds m) as [Hm1 Hm2].
  pose proof (digits_bounds n) as [Hn1 Hn2].
  f_equal. destruct (Z.compare_spec (digits m - 24) (digits n - 24)) as [E|E|E].
  - assert (E' : digits m = digits n) by lia. rewrite E'.
    change (Pos.compare_cont Eq ?a ?b) with (Zpos a ?= Zpos b).
    rewrite !Zpos_shl by lia. symmetry.
    apply Zmult_compare_compat_r. apply Z.lt_gt, Z.pow_pos_nonneg; lia.
  - symmetry. apply Z.compare_lt_iff.
    assert (2 ^ digits m <= 2 ^ (digits n - 1)) by (apply Z.pow_le_mono_r; lia). lia.
  - symmetry. apply Z.compare_gt_iff.
    assert (2 ^ digits n <= 2 ^ (digits m - 1)) by (apply Z.pow_le_mono_r; lia). lia.
Qed.

Lemma compare_of_Z x y :
  0 <= x <= two24 -> 0 <= y <= two24 ->
  SFcompare (of_Z x) (of_Z y) = Some (x ?= y).
Proof.
  intros Hx Hy.
  destruct (Z.eq_dec x two24) as [Ex|Ex]; destruct (Z.eq_dec y two24) as [Ey|Ey]; subst.
  - reflexivity.
  - destruct y as [|n|n]; [reflexivity| |lia].
    rewrite of_Z_two24, of_Z_small by lia. cbn [SFcompare].
    assert (digits n <= 24) by (unfold two24 in *; apply digits_le; lia).
    f_equal. replace (1 ?= digits n - 24) with Gt by (symmetry; apply Z.compare_gt_iff; lia).
    symmetry. apply Z.compare_gt_iff. lia.
  - destruct x as [|m|m]; [reflexivity| |lia].
    rewrite of_Z_two24, of_Z_small by lia. cbn [SFcompare].
    assert (digits m <= 24) by (unfold two24 in *; apply digits_le; lia).
    f_equal. replace (digits m - 24 ?= 1) with Lt by (symmetry; apply Z.compare_lt_iff; lia).
    symmetry. apply Z.compare_lt_iff. lia.
  - destruct x as [|m|m]; destruct y as [|n|n]; try lia; try reflexivity.
    + rewrite of_Z_small by lia. reflexivity.
    + rewrite of_Z_small by lia. reflexivity.
    + apply compare_small; lia.
Qed.

Lemma geb_of_Z x y :
  0 <= x <= two24 -> 0 <= y <= two24 -> geb (of_Z x) (of_Z y) = (y <=? x).
Proof.
  intros Hx Hy. unfold geb, SFleb. rewrite compare_of_Z by assumption.
  unfold Z.leb. destruct (y ?= x); reflexivity.
Qed.

Lemma sub_self x : 1 <= x <= two24 -> sub (of_Z x) (of_Z x) = zero.
Proof.
  intros Hx. assert (exists m e, of_Z x = S754_finite false m e) as (m & e & E).
  { destruct (Z.eq_dec x two24) as [->|Ne]; [rewrite of_Z_two24; eauto|].
    destruct x as [|n|n]; try lia. rewrite of_Z_small by lia. eauto. }
  rewrite E. unfold sub, SFsub. rewrite Z.sub_diag. reflexivity.
Qed.

End F32Facts.

(** ** alsa2.c: the generator and the loop *)
Module Alsa2Facts.
Import Env Alsa2 F32Facts.

Section Generator.

Variable sine_sample : F32.float -> Z -> F32.float.

Local Abbreviation generate_loop := (Alsa2.generate_loop sine_sample).
Local Abbreviation generate_data := (Alsa2.generate_data sine_sample).
Local Abbreviation block := (Alsa2.block sine_sample).

Lemma generate_loop_spec n : forall idx rate buffer phase,
  (idx + n <= length buffer)%nat ->
  generate_loop n idx rate buffer phase
  = (take idx buffer ++ block n rate phase ++ drop (idx + n) buffer,
     phase_after n rate phase).
Proof.
  induction n as [|n IH]; intros idx rate buffer phase Hlen; cbn [Alsa2.generate_loop Alsa2.block phase_after].
  - rewrite Nat.add_0_r. cbn [app]. rewrite take_drop. reflexivity.
  - rewrite IH by (rewrite length_insert; lia).
    f_equal. rewrite (take_S_r _ idx (sine_sample phase rate))
      by (apply list_lookup_insert_eq; lia).
    rewrite take_insert_ge by lia. rewrite drop_insert_lt by lia.
    rewrite <- app_assoc. cbn [app]. replace (S idx + n)%nat with (idx + S n)%nat by lia. reflexivity.
Qed.

Lemma generate_data_spec buffer n rate phase :
  (n <= length buffer)%nat ->
  generate_data buffer n rate phase
  = (block n rate phase ++ drop n buffer, phase_after n rate phase).
Proof.
  intros Hlen. unfold Alsa2.generate_data. rewrite generate_loop_spec by lia.
  rewrite take_0. reflexivity.
Qed.

Lemma generate_loop_phase n : forall idx rate buffer phase,
  snd (generate_loop n idx rate buffer phase) = phase_after n rate phase.
Proof.
  induction n as [|n IH]; intros; cbn [Alsa2.generate_loop phase_after]; [reflexivity|apply IH].
Qed.

Lemma phase_after_add n : forall m rate phase,
  phase_after (n + m) rate phase = phase_after m rate (phase_after n rate phase).
Proof.
  induction n as [|n IH]; intros; cbn [Nat.add phase_after]; [reflexivity|apply IH].
Qed.

Lemma block_add n : forall m rate phase,
  block (n + m) rate phase
  = block n rate phase ++ block m rate (phase_after n rate phase).
Proof.
  induction n as [|n IH]; intros; cbn [Nat.add Alsa2.block phase_after app];
    [reflexivity|f_equal; apply IH].
Qed.

Lemma length_block n : forall rate phase, length (block n rate phase) = n.
Proof.
  induction n as [|n IH]; intros; cbn [Alsa2.block length]; [reflexivity|f_equal; apply IH].
Qed.

Lemma next_phase_of_Z rate p :
  0 < rate <= F32.two24 -> 0 <= p < rate ->
  next_phase rate (F32.of_Z p) = F32.of_Z ((p + 1) mod rate).
Proof.
  intros Hr Hp. unfold next_phase.
  rewrite add_one by lia. rewrite geb_of_Z by lia.
  destruct (Z.leb_spec rate (p + 1)) as [Hge|Hlt].
  - assert (E : p + 1 = rate) by lia. rewrite E, Z_mod_same_full.
    apply sub_self. lia.
  - rewrite Z.mod_small by lia. reflexivity.
Qed.

Lemma phase_after_of_Z n : forall rate p,
  0 < rate <= F32.two24 -> 0 <= p < rate ->
  phase_after n rate (F32.of_Z p) = F32.of_Z ((p + Z.of_nat n) mod rate).
Proof.
  induction n as [|n IH]; intros rate p Hr Hp; cbn [phase_after].
  - rewrite Z.add_0_r, Z.mod_small by lia. reflexivity.
  - rewrite next_phase_of_Z by assumption.
    rewrite IH by (try apply Z.mod_pos_bound; lia).
    f_equal. rewrite Zplus_mod_idemp_l. f_equal. lia.
Qed.

(** C9. Two calls of the generator for [n] samples each, one after the
    other, fill their buffers with what a single call for [2n] samples
    writes from the same phase, and leave the same phase behind. *)
Theorem C9_two_blocks_continue_the_phase rate phase n
        (b1 b2 b : list F32.float) :
  length b1 = n -> length b2 = n -> length b = (n + n)%nat ->
  generate_data b (n + n) rate phase
  = (fst (generate_data b1 n rate phase)
       ++ fst (generate_data b2 n rate
                 (snd (generate_data b1 n rate phase))),
     snd (generate_data b2 n rate (snd (generate_data b1 n rate phase)))).
Proof.
  intros H1 H2 H. rewrite !generate_data_spec by lia. cbn [fst snd].
  rewrite !drop_ge by lia. rewrite !app_nil_r.
  rewrite block_add, phase_after_add. reflexivity.
Qed.

End Generator.

Section Loop.

Variable sine_sample : F32.float -> Z -> F32.float.
Variable local_data_buffer_size : nat.
Variable rate : Z.

Local Abbreviation refill := (Alsa2.refill sine_sample local_data_buffer_size rate).
Local Abbreviation on_writable := (Alsa2.on_writable).
Local Abbreviation wait_and_dispatch := (Alsa2.wait_and_dispatch).
Local Abbreviation iteration := (Alsa2.iteration sine_sample local_data_buffer_size rate).
Local Abbreviation run := (Alsa2.run sine_sample local_data_buffer_size rate).

Ltac split_ifs :=
  repeat match goal with
    | |- context [if ?b then _ else _] => destruct b eqn:?
    | |- context [match dev_state ?d with _ => _ end] => destruct (dev_state d) eqn:?
    | |- context [let '(_, _) := ?p in _] => destruct p eqn:?
    end.

Ltac to_Z :=
  unfold EPIPE, ESTRPIPE, EINTR in *;
  repeat match goal with
    | H : (_ <? _) = true |- _ => apply Z.ltb_lt in H
    | H : (_ <? _) = false |- _ => apply Z.ltb_ge in H
    | H : (_ >? _) = true |- _ => rewrite Z.gtb_ltb in H; apply Z.ltb_lt in H
    | H : (_ >? _) = false |- _ => rewrite Z.gtb_ltb in H; apply Z.ltb_ge in H
    | H : (_ =? _) = true |- _ => apply Z.eqb_eq in H
    | H : (_ =? _) = false |- _ => apply Z.eqb_neq in H
    end.

Ltac open_pass :=
  unfold Alsa2.iteration, Alsa2.wait_and_dispatch, Alsa2.on_writable,
    Alsa2.write_frames, Alsa2.resume_then_continue,
    Alsa2.prepare_then_continue.

Ltac by_cases :=
  repeat match goal with
    | |- context [if ?b then _ else _] =>
        lazymatch type of b with bool => destruct b eqn:?; cbn end
    end.

Lemma fst_after {S} tr (r : list call * outcome S) :
  fst (after tr r) = tr ++ fst r.
Proof. destruct r. reflexivity. Qed.

Lemma snd_after {S} tr (r : list call * outcome S) :
  snd (after tr r) = snd r.
Proof. destruct r. reflexivity. Qed.

Lemma after_after {S} tr1 tr2 (r : list call * outcome S) :
  after tr1 (after tr2 r) = after (tr1 ++ tr2) r.
Proof. destruct r. cbn. rewrite app_assoc. reflexivity. Qed.

Lemma frames_generated_app tr1 tr2 :
  frames_generated (tr1 ++ tr2) = frames_generated tr1 + frames_generated tr2.
Proof.
  induction tr1 as [|c tr1 IH]; cbn [app frames_generated]; [lia|].
  destruct c; lia.
Qed.

Lemma frames_written_app tr1 tr2 :
  frames_written (tr1 ++ tr2) = frames_written tr1 + frames_written tr2.
Proof.
  induction tr1 as [|c tr1 IH]; cbn [app frames_written]; [lia|].
  destruct c; lia.
Qed.

Lemma refill_nonempty s :
  frames_to_write_from_local_buffer s <> 0 -> refill s = ([], s).
Proof.
  intros H. unfold Alsa2.refill.
  destruct (Z.eqb_spec (frames_to_write_from_local_buffer s) 0); [contradiction|reflexivity].
Qed.

Lemma refill_empty s :
  frames_to_write_from_local_buffer s = 0 ->
  refill s =
  ([Generate local_data_buffer_size],
   {| phase := snd (generate_data sine_sample (local_data_buffer s) local_data_buffer_size rate (phase s));
      local_data_buffer := fst (generate_data sine_sample (local_data_buffer s) local_data_buffer_size rate (phase s));
      local_data_ptr := Some 0;
      frames_to_write_from_local_buffer := Z.of_nat local_data_buffer_size |}).
Proof.
  intros H. unfold Alsa2.refill. rewrite H. cbn [Z.eqb].
  destruct (generate_data _ _ _ _ _). reflexivity.
Qed.

Lemma refill_writes s : filter is_write (fst (refill s)) = [].
Proof.
  unfold Alsa2.refill. split_ifs; reflexivity.
Qed.

Lemma refill_account s :
  frames_written (fst (refill s)) = 0 /\
  0 <= frames_generated (fst (refill s)) /\
  frames_generated (fst (refill s)) + frames_to_write_from_local_buffer s
  = frames_to_write_from_local_buffer (snd (refill s)).
Proof.
  unfold Alsa2.refill.
  destruct (Z.eqb_spec (frames_to_write_from_local_buffer s) 0) as [E|E].
  - destruct (generate_data _ _ _ _ _). cbn. lia.
  - cbn. lia.
Qed.

(** A pass is its refill followed by the wait and what the wait leads to. *)
Lemma iteration_eq d s :
  iteration d s = after (fst (refill s)) (wait_and_dispatch d (snd (refill s))).
Proof.
  unfold Alsa2.iteration. destruct (refill s). reflexivity.
Qed.

(** Entering [if (revents & POLLOUT)]. *)
Lemma iteration_writable d s :
  woken_writable d = true ->
  iteration d s
  = after (fst (refill s) ++ [Select (dev_select d); PollRevents (dev_revents_ret d)])
      (on_writable d (snd (refill s))).
Proof.
  intros H. unfold woken_writable, polled_out in H.
  apply andb_prop in H as [H H3]. apply andb_prop in H as [H1 H2].
  apply negb_true_iff in H1, H2, H3.
  rewrite iteration_eq. unfold Alsa2.wait_and_dispatch. rewrite H1, H2, H3.
  rewrite !after_after, <- app_assoc. reflexivity.
Qed.


Lemma min_as_coded a f : (if a >? f then f else a) = Z.min a f.
Proof. destruct (Z.gtb_spec a f); lia. Qed.

Lemma refill_frames_nonzero s :
  local_data_buffer_size <> 0%nat ->
  frames_to_write_from_local_buffer (snd (refill s)) <> 0.
Proof.
  intros Hcap. unfold Alsa2.refill.
  destruct (Z.eqb_spec (frames_to_write_from_local_buffer s) 0) as [E|E].
  - destruct (generate_data _ _ _ _ _). cbn. lia.
  - exact E.
Qed.

(** C7. When select() fails with EINTR the pass ends in [continue]: nothing
    but the wait was called, the process does not exit, the variables are
    those left by the top of the loop, and the loop goes on with the next
    wait, which (the buffer holding frames) is the first thing it does. *)
Theorem C7_interrupted_wait_is_retried d s :
  dev_select d = -1 -> dev_errno d = EINTR ->
  iteration d s = (fst (refill s) ++ [Select (-1)], Continue (snd (refill s)))
  /\ (forall ds,
        run (d :: ds) s
        = after (fst (refill s) ++ [Select (-1)]) (run ds (snd (refill s))))
  /\ (local_data_buffer_size <> 0%nat ->
      forall d', iteration d' (snd (refill s))
                 = wait_and_dispatch d' (snd (refill s))).
Proof.
  intros Hsel Herr.
  assert (E : iteration d s
              = (fst (refill s) ++ [Select (-1)], Continue (snd (refill s)))).
  { rewrite iteration_eq. unfold Alsa2.wait_and_dispatch.
    rewrite Hsel, Herr. reflexivity. }
  split; [exact E|split].
  - intros ds. cbn [Alsa2.run]. rewrite E. reflexivity.
  - intros Hcap d'. rewrite iteration_eq.
    rewrite refill_nonempty by (apply refill_frames_nonzero; exact Hcap).
    cbn [fst snd]. destruct (wait_and_dispatch d' _). reflexivity.
Qed.

Lemma not_polled_out d s :
  polled_out d = false ->
  filter is_write (fst (wait_and_dispatch d s)) = []
  /\ forall s', snd (wait_and_dispatch d s) = Continue s' -> s' = s.
Proof.
  intros H. unfold polled_out in H. apply negb_false_iff in H.
  unfold Alsa2.wait_and_dispatch. rewrite H.
  by_cases; (split; [reflexivity|intros s' E; congruence]).
Qed.

(** C10, as the code has it. In a pass whose [revents] lacks POLLOUT no
    write is issued, and the pass leaves the variables as the refill at the
    top of the loop left them: unchanged when frames were still pending,
    freshly generated when none were. In any pass, a write implies that
    POLLOUT was reported. *)
Theorem C10_only_the_refill_without_pollout d s :
  (polled_out d = false ->
   filter is_write (fst (iteration d s)) = []
   /\ (forall s', snd (iteration d s) = Continue s' -> s' = snd (refill s))
   /\ (frames_to_write_from_local_buffer s <> 0 ->
       forall s', snd (iteration d s) = Continue s' -> s' = s))
  /\ (filter is_write (fst (iteration d s)) <> [] -> polled_out d = true).
Proof.
  assert (A : polled_out d = false ->
              filter is_write (fst (iteration d s)) = []
              /\ (forall s', snd (iteration d s) = Continue s' -> s' = snd (refill s))).
  { intros H. rewrite iteration_eq, fst_after, snd_after.
    destruct (not_polled_out d (snd (refill s)) H) as [Hw Hs].
    rewrite filter_app, refill_writes, Hw. split; [reflexivity|exact Hs]. }
  split.
  - intros H. destruct (A H) as [Hw Hs]. split; [exact Hw|split; [exact Hs|]].
    intros Hne s' E. rewrite (Hs s' E), refill_nonempty by exact Hne. reflexivity.
  - intros Hw. destruct (polled_out d) eqn:E; [reflexivity|].
    destruct (A eq_refl) as [Hw' _]. contradiction.
Qed.

(** C10 as stated fails: the first pass of the loop refills the buffer and
    sets the cursor before it waits, whatever the wait then reports. *)
Lemma C10_refill_precedes_the_wait :
  ~ (forall d s s',
        polled_out d = false ->
        snd (Alsa2.iteration Scenario.ramp 4 4 d s) = Continue s' ->
        local_data_ptr s' = local_data_ptr s
        /\ frames_to_write_from_local_buffer s'
           = frames_to_write_from_local_buffer s
        /\ local_data_buffer s' = local_data_buffer s).
Proof.
  intros H.
  destruct (H Scenario.not_writable (Alsa2.init (Scenario.silence 4)) _
              eq_refl eq_refl) as [Hptr _].
  discriminate Hptr.
Qed.


(** The prepare/resume calls are made in the five fault branches and
    nowhere else. *)
Lemma recovery_iff_fault d s :
  existsb is_recovery (fst (iteration d s))
  = fault_classified d (snd (refill s)).
Proof.
  rewrite iteration_eq, fst_after.
  rewrite existsb_app.
  replace (existsb is_recovery (fst (refill s))) with false
    by (unfold Alsa2.refill; split_ifs; reflexivity).
  cbn [orb]. generalize (snd (refill s)). clear s. intros s.
  unfold fault_classified, woken_writable, polled_out, frames_this_iter.
  open_pass. rewrite min_as_coded.
  destruct (dev_select d =? -1); cbn; [destruct (dev_errno d =? EINTR); reflexivity|].
  destruct (dev_revents_ret d <? 0); cbn; [reflexivity|].
  destruct (Z.land (dev_revents d) POLLOUT =? 0); cbn; [reflexivity|].
  rewrite Z.gtb_ltb.
  destruct (dev_state d); cbn;
    by_cases; try reflexivity; try congruence;
    symmetry; apply orb_false_iff; split; apply Z.eqb_neq; to_Z; lia.
Qed.

Lemma fault_pass d s :
  fault_classified d s = true ->
  frames_written (fst (wait_and_dispatch d s)) = 0
  /\ forall s', snd (wait_and_dispatch d s) = Continue s' -> s' = s.
Proof.
  unfold fault_classified, woken_writable, polled_out, frames_this_iter.
  open_pass. rewrite min_as_coded.
  destruct (dev_select d =? -1); cbn; [discriminate|].
  destruct (dev_revents_ret d <? 0); cbn; [discriminate|].
  destruct (Z.land (dev_revents d) POLLOUT =? 0); cbn; [discriminate|].
  rewrite Z.gtb_ltb.
  destruct (dev_state d); cbn; by_cases; intros Hf;
    (split; [|intros s' E]); try reflexivity; try congruence;
    try (to_Z; lia);
    apply orb_prop in Hf as [Hf|Hf]; to_Z; lia.
Qed.

(** What a pass does when the space query reports an underrun. *)
Lemma avail_underrun_trace d s :
  woken_writable d = true -> state_normal (dev_state d) = true ->
  dev_avail_update d = - EPIPE ->
  iteration d s
  = (fst (refill s) ++
       [Select (dev_select d); PollRevents (dev_revents_ret d);
        PcmState (dev_state d); AvailUpdate (- EPIPE);
        PcmPrepare (dev_prepare d)],
     if dev_prepare d <? 0
     then Exit "snd_pcm_prepare after avail_update XRUN" (dev_prepare d)
     else Continue (snd (refill s))).
Proof.
  intros Hw Hst Hav. rewrite iteration_writable by exact Hw.
  unfold Alsa2.on_writable, Alsa2.prepare_then_continue. rewrite Hav.
  change (- EPIPE <? 0) with true. change (- EPIPE =? - EPIPE) with true.
  destruct (dev_state d); try discriminate Hst;
    cbv beta iota delta [after]; rewrite <- ?app_assoc; reflexivity.
Qed.

(** C5. In a pass that classifies an underrun or a suspension, the
    variables after the pass are those the refill at the top of the loop
    left (those before the pass when frames were pending): prepare and
    resume change neither the cursor nor the buffer. When the space query
    reports the underrun, the pass calls prepare once, after the query, and
    issues no write. *)
Theorem C5_recovery_keeps_cursor_and_buffer d s :
  fault_classified d (snd (refill s)) = true ->
  (forall s', snd (iteration d s) = Continue s' ->
     s' = snd (refill s)
     /\ (frames_to_write_from_local_buffer s <> 0 -> s' = s))
  /\ (state_normal (dev_state d) = true -> dev_avail_update d = - EPIPE ->
      fst (iteration d s)
      = fst (refill s) ++
          [Select (dev_select d); PollRevents (dev_revents_ret d);
           PcmState (dev_state d); AvailUpdate (- EPIPE);
           PcmPrepare (dev_prepare d)]
      /\ length (filter is_prepare (fst (iteration d s))) = 1%nat
      /\ filter is_write (fst (iteration d s)) = []).
Proof.
  intros Hf. split.
  - intros s' E. rewrite iteration_eq, snd_after in E.
    apply (proj2 (fault_pass _ _ Hf)) in E. split; [exact E|].
    intros Hne. rewrite E, refill_nonempty by exact Hne. reflexivity.
  - intros Hst Hav.
    assert (Hw : woken_writable d = true).
    { unfold fault_classified in Hf. apply andb_prop in Hf as [Hw _]. exact Hw. }
    rewrite (avail_underrun_trace d s Hw Hst Hav). cbn [fst].
    split; [reflexivity|].
    rewrite !filter_app, refill_writes.
    replace (filter is_prepare (fst (refill s))) with (@nil call)
      by (unfold Alsa2.refill; split_ifs; reflexivity).
    split; reflexivity.
Qed.


(** Books of one pass: frames written plus frames pending equals frames
    generated plus frames pending before. *)
Lemma wait_and_dispatch_account d s :
  takes_at_most_requested d ->
  0 <= frames_to_write_from_local_buffer s ->
  frames_generated (fst (wait_and_dispatch d s)) = 0
  /\ match snd (wait_and_dispatch d s) with
     | Continue s' =>
         0 <= frames_to_write_from_local_buffer s'
         /\ frames_written (fst (wait_and_dispatch d s))
            + frames_to_write_from_local_buffer s'
            = frames_to_write_from_local_buffer s
     | Exit _ _ => frames_written (fst (wait_and_dispatch d s)) = 0
     end.
Proof.
  intros Hdev Hs. open_pass. rewrite min_as_coded.
  pose proof (Hdev (Z.min (dev_avail_update d) (frames_to_write_from_local_buffer s))) as Hw.
  destruct (dev_state d); cbn;
    by_cases; to_Z; repeat split; try lia.
Qed.

Lemma iteration_account d s :
  takes_at_most_requested d ->
  0 <= frames_to_write_from_local_buffer s ->
  match snd (iteration d s) with
  | Continue s' =>
      0 <= frames_to_write_from_local_buffer s'
      /\ frames_written (fst (iteration d s))
         + frames_to_write_from_local_buffer s'
         = frames_generated (fst (iteration d s))
           + frames_to_write_from_local_buffer s
  | Exit _ _ =>
      frames_written (fst (iteration d s))
      <= frames_generated (fst (iteration d s))
         + frames_to_write_from_local_buffer s
  end.
Proof.
  intros Hdev Hs. rewrite iteration_eq, fst_after, snd_after.
  rewrite frames_written_app, frames_generated_app.
  destruct (refill_account s) as (Hw & Hg0 & Hg).
  assert (Hs1 : 0 <= frames_to_write_from_local_buffer (snd (refill s))) by lia.
  destruct (wait_and_dispatch_account d _ Hdev Hs1) as [Hg' Hacc].
  destruct (snd (wait_and_dispatch d (snd (refill s)))); lia.
Qed.

Lemma run_account ds : forall s,
  Forall takes_at_most_requested ds ->
  0 <= frames_to_write_from_local_buffer s ->
  match snd (run ds s) with
  | Continue s' =>
      0 <= frames_to_write_from_local_buffer s'
      /\ frames_written (fst (run ds s)) + frames_to_write_from_local_buffer s'
         = frames_generated (fst (run ds s)) + frames_to_write_from_local_buffer s
  | Exit _ _ =>
      frames_written (fst (run ds s))
      <= frames_generated (fst (run ds s)) + frames_to_write_from_local_buffer s
  end.
Proof.
  induction ds as [|d ds IH]; intros s Hds Hs; cbn [Alsa2.run].
  - cbn. lia.
  - apply Forall_cons_1 in Hds as [Hd Hds].
    pose proof (iteration_account d s Hd Hs) as Hit.
    destruct (iteration d s) as [tr [s1|msg code]]; cbn [fst snd] in Hit.
    + destruct Hit as [Hs1 Hacc]. specialize (IH s1 Hds Hs1).
      rewrite fst_after, snd_after.
      rewrite frames_written_app, frames_generated_app.
      destruct (snd (run ds s1)); lia.
    + cbn [fst snd]. exact Hit.
Qed.

(** C6. Against any answers of the device, as long as a write never takes
    more frames than it is given, at the end of every pass the frames
    written so far do not exceed the frames generated so far, and the count
    of pending frames is not negative: written plus pending is exactly what
    was generated. *)
Theorem C6_written_never_exceeds_generated ds stack :
  Forall takes_at_most_requested ds ->
  frames_written (fst (run ds (Alsa2.init stack)))
  <= frames_generated (fst (run ds (Alsa2.init stack)))
  /\ forall s, snd (run ds (Alsa2.init stack)) = Continue s ->
       0 <= frames_to_write_from_local_buffer s
       /\ frames_written (fst (run ds (Alsa2.init stack)))
          + frames_to_write_from_local_buffer s
          = frames_generated (fst (run ds (Alsa2.init stack))).
Proof.
  intros Hds.
  pose proof (run_account ds (Alsa2.init stack) Hds) as H.
  cbn [Alsa2.init frames_to_write_from_local_buffer] in H.
  specialize (H (Z.le_refl 0)).
  destruct (snd (run ds (Alsa2.init stack))) as [s1|msg code].
  - split; [lia|]. intros s E. injection E as <-. lia.
  - split; [lia|]. intros s E. discriminate E.
Qed.


(** With POLLOUT reported and the device in a normal state, the pass
    queries the free space and goes on from its answer. *)
Lemma queried_pass d s :
  woken_writable d = true -> state_normal (dev_state d) = true ->
  iteration d s
  = after (fst (refill s) ++
             [Select (dev_select d); PollRevents (dev_revents_ret d);
              PcmState (dev_state d); AvailUpdate (dev_avail_update d)])
      (if dev_avail_update d <? 0 then
         if dev_avail_update d =? - EPIPE then
           Alsa2.prepare_then_continue d
             "snd_pcm_prepare after avail_update XRUN" (snd (refill s))
         else ([], Exit "snd_pcm_avail_update" (dev_avail_update d))
       else if 0 <? frames_this_iter d (snd (refill s))
       then Alsa2.write_frames d (frames_this_iter d (snd (refill s)))
              (snd (refill s))
       else ([], Continue (snd (refill s)))).
Proof.
  intros Hw Hst. rewrite iteration_writable by exact Hw.
  unfold Alsa2.on_writable, frames_this_iter. rewrite min_as_coded, Z.gtb_ltb.
  destruct (dev_state d); try discriminate Hst;
    rewrite !after_after, <- !app_assoc; reflexivity.
Qed.

(** With POLLOUT reported, the device in a normal state and a space query
    that succeeds, the pass is the query followed by the write, if any. *)
Lemma normal_pass d s :
  woken_writable d = true -> state_normal (dev_state d) = true ->
  0 <= dev_avail_update d ->
  iteration d s
  = after (fst (refill s) ++
             [Select (dev_select d); PollRevents (dev_revents_ret d);
              PcmState (dev_state d); AvailUpdate (dev_avail_update d)])
      (if 0 <? frames_this_iter d (snd (refill s))
       then Alsa2.write_frames d (frames_this_iter d (snd (refill s))) (snd (refill s))
       else ([], Continue (snd (refill s)))).
Proof.
  intros Hw Hst Hav. rewrite (queried_pass d s Hw Hst).
  apply Z.ltb_ge in Hav. rewrite Hav. reflexivity.
Qed.

Lemma write_frames_writes d n s :
  filter is_write (fst (Alsa2.write_frames d n s))
  = [Writei (local_data_ptr s) n (dev_writei d n)].
Proof.
  unfold Alsa2.write_frames, Alsa2.resume_then_continue,
    Alsa2.prepare_then_continue.
  by_cases; reflexivity.
Qed.

Lemma writes_start_at_cursor d s p m r :
  In (Writei p m r) (fst (wait_and_dispatch d s)) -> p = local_data_ptr s.
Proof.
  open_pass. destruct (dev_state d); cbn;
    by_cases; intros H; intuition congruence.
Qed.

Lemma wait_and_dispatch_keeps d s s' :
  snd (wait_and_dispatch d s) = Continue s' ->
  phase s' = phase s /\ local_data_buffer s' = local_data_buffer s.
Proof.
  open_pass. destruct (dev_state d); cbn;
    by_cases; intros E; try discriminate E; injection E as <-; split; reflexivity.
Qed.

(** C1. A pass that finds POLLOUT set and the device in a normal state
    queries the free space; it then issues one write of
    [min(available, pending)] frames from the cursor if that number is
    positive, and no write otherwise (in particular none when the query
    fails, its answer being negative). With a buffer of 4 frames and 2, 0
    and 2 frames of room, the loop writes 2 frames from offset 0, nothing,
    then 2 frames from offset 2, which leaves no frame pending, and the
    pass after that starts by generating a new block. *)
Theorem C1_writes_min_of_space_and_pending d s :
  woken_writable d = true -> state_normal (dev_state d) = true ->
  (exists rest,
      fst (iteration d s)
      = fst (refill s) ++
          [Select (dev_select d); PollRevents (dev_revents_ret d);
           PcmState (dev_state d); AvailUpdate (dev_avail_update d)] ++ rest
      /\ filter is_write rest = filter is_write (fst (iteration d s)))
  /\ filter is_write (fst (iteration d s))
     = (if 0 <? Z.min (dev_avail_update d)
                  (frames_to_write_from_local_buffer (snd (refill s)))
        then [Writei (local_data_ptr (snd (refill s)))
                (Z.min (dev_avail_update d)
                   (frames_to_write_from_local_buffer (snd (refill s))))
                (dev_writei d
                   (Z.min (dev_avail_update d)
                      (frames_to_write_from_local_buffer (snd (refill s)))))]
        else [])
  /\ (forall stack,
        let three :=
          Alsa2.run sine_sample 4 4
            [Scenario.writable 2; Scenario.writable 0; Scenario.writable 2]
            (Alsa2.init stack) in
        fst three
        = [Generate 4;
           Select 1; PollRevents 0; PcmState SND_PCM_STATE_RUNNING;
           AvailUpdate 2; Writei (Some 0) 2 2;
           Select 1; PollRevents 0; PcmState SND_PCM_STATE_RUNNING;
           AvailUpdate 0;
           Select 1; PollRevents 0; PcmState SND_PCM_STATE_RUNNING;
           AvailUpdate 2; Writei (Some 2) 2 2]
        /\ exists s3,
             snd three = Continue s3
             /\ frames_to_write_from_local_buffer s3 = 0
             /\ forall d',
                  hd_error (fst (Alsa2.iteration sine_sample 4 4 d' s3))
                  = Some (Generate 4)).
Proof.
  intros Hw Hst.
  pose proof (queried_pass d s Hw Hst) as E.
  fold (frames_this_iter d (snd (refill s))).
  assert (Hfilter :
    filter is_write (fst (iteration d s))
    = if 0 <? frames_this_iter d (snd (refill s))
      then [Writei (local_data_ptr (snd (refill s)))
              (frames_this_iter d (snd (refill s)))
              (dev_writei d (frames_this_iter d (snd (refill s))))]
      else []).
  { rewrite E, fst_after. rewrite !filter_app, refill_writes.
    destruct (Z.ltb_spec (dev_avail_update d) 0) as [Hneg|Hav].
    - replace (0 <? frames_this_iter d (snd (refill s))) with false
        by (symmetry; apply Z.ltb_ge; unfold frames_this_iter; lia).
      unfold Alsa2.prepare_then_continue.
      destruct (dev_avail_update d =? - EPIPE); reflexivity.
    - destruct (0 <? frames_this_iter d (snd (refill s)));
        [rewrite write_frames_writes|]; reflexivity. }
  split; [|split; [exact Hfilter|]].
  - rewrite E, fst_after. rewrite <- app_assoc.
    eexists. split; [reflexivity|].
    rewrite !filter_app, refill_writes. reflexivity.
  - intros stack three. subst three. split; [reflexivity|].
    eexists. split; [reflexivity|]. split; [reflexivity|].
    intros d'. unfold Alsa2.iteration.
    destruct (Alsa2.refill sine_sample 4 4 _) as [tr s4] eqn:Er.
    apply (f_equal fst) in Er. vm_compute in Er. subst tr.
    rewrite fst_after. reflexivity.
Qed.

(** C2. When a write takes fewer frames than it was given, the pass ends
    with the cursor moved by the frames taken: the pointer is advanced and
    the pending count reduced by that number, the buffer is untouched, and
    whatever pass writes next writes from the advanced pointer. *)
Theorem C2_short_write_advances_by_accepted d s :
  woken_writable d = true -> state_normal (dev_state d) = true ->
  0 <= dev_writei d (frames_this_iter d (snd (refill s)))
     < frames_this_iter d (snd (refill s)) ->
  exists s',
    snd (iteration d s) = Continue s'
    /\ local_data_ptr s'
       = ptr_add (local_data_ptr (snd (refill s)))
           (dev_writei d (frames_this_iter d (snd (refill s))))
    /\ frames_to_write_from_local_buffer s'
       = frames_to_write_from_local_buffer (snd (refill s))
         - dev_writei d (frames_this_iter d (snd (refill s)))
    /\ local_data_buffer s' = local_data_buffer (snd (refill s))
    /\ forall d' p m r,
         In (Writei p m r) (fst (iteration d' s')) ->
         p = ptr_add (local_data_ptr (snd (refill s)))
               (dev_writei d (frames_this_iter d (snd (refill s)))).
Proof.
  intros Hw Hst [Hret Hshort].
  assert (Hav : 0 <= dev_avail_update d)
    by (unfold frames_this_iter in *; lia).
  rewrite (normal_pass d s Hw Hst Hav).
  set (s1 := snd (refill s)) in *. set (n := frames_this_iter d s1) in *.
  assert (Hn : (0 <? n) = true) by (apply Z.ltb_lt; lia).
  rewrite Hn. unfold Alsa2.write_frames.
  apply Z.ltb_ge in Hret. rewrite Hret. rewrite !snd_after. cbn [snd].
  eexists. split; [reflexivity|]. cbn [local_data_ptr
    frames_to_write_from_local_buffer local_data_buffer].
  repeat split.
  intros d' p m r Hin. rewrite iteration_eq in Hin.
  rewrite refill_nonempty in Hin.
  - rewrite fst_after in Hin. cbn [fst snd app] in Hin.
    apply writes_start_at_cursor in Hin. exact Hin.
  - cbn [frames_to_write_from_local_buffer].
    subst n s1. unfold frames_this_iter in *. lia.
Qed.

(** C4. When the device is found suspended, by snd_pcm_state or by the
    return value of the write, and snd_pcm_resume does not succeed (it
    returns 0, which the code reads as "not possible", or an error), the
    very next call of the pass is snd_pcm_prepare and the pass ends there:
    it exits if prepare fails and otherwise continues with the variables as
    they were after the refill. No frame is written in the pass (the only
    write call it can contain is the one that reported the suspension), and
    a next pass that finds POLLOUT set goes through the writable branch. *)
Theorem C4_resume_not_possible_falls_back_to_prepare d s :
  woken_writable d = true -> dev_resume d <= 0 ->
  (dev_state d = SND_PCM_STATE_SUSPENDED ->
   iteration d s
   = (fst (refill s) ++
        [Select (dev_select d); PollRevents (dev_revents_ret d);
         PcmState SND_PCM_STATE_SUSPENDED;
         PcmResume (dev_resume d); PcmPrepare (dev_prepare d)],
      if dev_prepare d <? 0
      then Exit "snd_pcm_prepare after SUSPENDED" (dev_prepare d)
      else Continue (snd (refill s))))
  /\ (state_normal (dev_state d) = true ->
      0 < frames_this_iter d (snd (refill s)) ->
      dev_writei d (frames_this_iter d (snd (refill s))) = - ESTRPIPE ->
      iteration d s
      = (fst (refill s) ++
           [Select (dev_select d); PollRevents (dev_revents_ret d);
            PcmState (dev_state d); AvailUpdate (dev_avail_update d);
            Writei (local_data_ptr (snd (refill s)))
              (frames_this_iter d (snd (refill s))) (- ESTRPIPE);
            PcmResume (dev_resume d); PcmPrepare (dev_prepare d)],
         if dev_prepare d <? 0
         then Exit "snd_pcm_prepare after writei SUSPENDED" (dev_prepare d)
         else Continue (snd (refill s))))
  /\ (fault_classified d (snd (refill s)) = true ->
      frames_written (fst (iteration d s)) = 0)
  /\ (forall s' d',
        snd (iteration d s) = Continue s' -> woken_writable d' = true ->
        iteration d' s'
        = after (fst (refill s') ++
                   [Select (dev_select d'); PollRevents (dev_revents_ret d')])
            (on_writable d' (snd (refill s')))).
Proof.
  intros Hw Hres.
  assert (Hno : (dev_resume d <? 0) || (dev_resume d =? 0) = true).
  { destruct (Z.ltb_spec (dev_resume d) 0); [reflexivity|].
    apply Z.eqb_eq. lia. }
  split; [|split; [|split]].
  - intros Hst. rewrite iteration_writable by exact Hw.
    unfold Alsa2.on_writable, Alsa2.resume_then_continue,
      Alsa2.prepare_then_continue.
    rewrite Hst, Hno.
    cbv beta iota delta [after]. rewrite <- ?app_assoc. reflexivity.
  - intros Hst Hn Hret.
    assert (Hav : 0 <= dev_avail_update d)
      by (unfold frames_this_iter in Hn; lia).
    rewrite (normal_pass d s Hw Hst Hav).
    apply Z.ltb_lt in Hn. rewrite Hn.
    unfold Alsa2.write_frames, Alsa2.resume_then_continue,
      Alsa2.prepare_then_continue.
    rewrite Hret, Hno.
    change (- ESTRPIPE <? 0) with true.
    change (- ESTRPIPE =? - EPIPE) with false.
    change (- ESTRPIPE =? - ESTRPIPE) with true.
    cbv beta iota delta [after]. rewrite <- ?app_assoc. reflexivity.
  - intros Hf. rewrite iteration_eq, fst_after.
    rewrite frames_written_app.
    destruct (refill_account s) as (-> & _ & _).
    rewrite (proj1 (fault_pass _ _ Hf)). reflexivity.
  - intros s' d' _ Hw'. apply iteration_writable. exact Hw'.
Qed.

Lemma refill_phase s p :
  0 < rate <= F32.two24 -> 0 <= p < rate -> phase s = F32.of_Z p ->
  phase (snd (refill s))
  = F32.of_Z ((p + frames_generated (fst (refill s))) mod rate).
Proof.
  intros Hr Hp Hs. unfold Alsa2.refill.
  destruct (frames_to_write_from_local_buffer s =? 0).
  - unfold Alsa2.generate_data.
    pose proof (generate_loop_phase sine_sample local_data_buffer_size 0%nat
                  rate (local_data_buffer s) (phase s)) as E.
    destruct (Alsa2.generate_loop _ _ _ _ _ _) as [buffer phase'].
    cbn [fst snd phase frames_generated] in *. rewrite E, Hs, Z.add_0_r.
    apply phase_after_of_Z; assumption.
  - cbn [fst snd frames_generated]. rewrite Z.add_0_r, Z.mod_small by lia.
    exact Hs.
Qed.

Lemma wait_and_dispatch_generates d s :
  frames_generated (fst (wait_and_dispatch d s)) = 0.
Proof.
  open_pass. destruct (dev_state d); cbn; by_cases; reflexivity.
Qed.

Lemma iteration_phase d s s' p :
  0 < rate <= F32.two24 -> 0 <= p < rate -> phase s = F32.of_Z p ->
  snd (iteration d s) = Continue s' ->
  phase s'
  = F32.of_Z ((p + frames_generated (fst (iteration d s))) mod rate).
Proof.
  intros Hr Hp Hs E. rewrite iteration_eq, snd_after in E.
  apply wait_and_dispatch_keeps in E as [E _].
  rewrite iteration_eq, fst_after, frames_generated_app.
  rewrite wait_and_dispatch_generates, Z.add_0_r, E.
  apply refill_phase; assumption.
Qed.

Lemma run_phase ds : forall s s' p,
  0 < rate <= F32.two24 -> 0 <= p < rate -> phase s = F32.of_Z p ->
  snd (run ds s) = Continue s' ->
  phase s' = F32.of_Z ((p + frames_generated (fst (run ds s))) mod rate).
Proof.
  induction ds as [|d ds IH]; intros s s' p Hr Hp Hs E; cbn [Alsa2.run] in *.
  - injection E as <-. cbn [fst frames_generated].
    rewrite Z.add_0_r, Z.mod_small by lia. exact Hs.
  - pose proof (iteration_phase d s) as Hit.
    destruct (iteration d s) as [tr [s1|msg code]]; [|discriminate E].
    cbn [fst snd] in Hit. specialize (Hit s1 p Hr Hp Hs eq_refl).
    rewrite snd_after in E. rewrite fst_after, frames_generated_app.
    rewrite (IH s1 s' _ Hr (Z.mod_pos_bound _ _ (proj1 Hr)) Hit E).
    f_equal. rewrite Zplus_mod_idemp_l. f_equal. lia.
Qed.

(** The two sorters agree on every return value but [-ESTRPIPE]. *)
Lemma classifiers_agree ret :
  ret <> - ESTRPIPE -> classify_avail_update ret = classify_writei ret.
Proof.
  intros H. unfold classify_avail_update, classify_writei.
  destruct (ret <? 0); [|reflexivity].
  destruct (ret =? - EPIPE); [reflexivity|].
  destruct (Z.eqb_spec ret (- ESTRPIPE)); [contradiction|reflexivity].
Qed.

(** A fatal code is the negative return value itself. *)
Lemma fatal_code_is_return_value ret code :
  classify_avail_update ret = Fatal code \/ classify_writei ret = Fatal code ->
  code = ret /\ ret < 0.
Proof.
  unfold classify_avail_update, classify_writei.
  destruct (Z.ltb_spec ret 0); destruct (ret =? - EPIPE);
    destruct (ret =? - ESTRPIPE); intros [E|E]; try discriminate E;
    injection E as <-; (split; [reflexivity|assumption]).
Qed.

(** [classify_writei] is how [write_frames] branches. *)
Lemma write_frames_classified d n s :
  Alsa2.write_frames d n s
  = after [Writei (local_data_ptr s) n (dev_writei d n)]
      match classify_writei (dev_writei d n) with
      | Success ret =>
          ([], Continue
                 {| phase := phase s;
                    local_data_buffer := local_data_buffer s;
                    local_data_ptr := ptr_add (local_data_ptr s) ret;
                    frames_to_write_from_local_buffer :=
                      frames_to_write_from_local_buffer s - ret |})
      | Underrun =>
          Alsa2.prepare_then_continue d "snd_pcm_prepare after writei XRUN" s
      | Suspended =>
          Alsa2.resume_then_continue d
            "snd_pcm_prepare after writei SUSPENDED" s
      | Fatal code => ([], Exit "snd_pcm_writei" code)
      end.
Proof.
  unfold Alsa2.write_frames, classify_writei.
  destruct (dev_writei d n <? 0); [|reflexivity].
  destruct (dev_writei d n =? - EPIPE); [reflexivity|].
  destruct (dev_writei d n =? - ESTRPIPE); reflexivity.
Qed.

(** [classify_avail_update] is how the pass branches on the space query:
    a fatal code ends the process there, with no prepare or resume. *)
Lemma avail_update_fatal d s code :
  woken_writable d = true -> state_normal (dev_state d) = true ->
  classify_avail_update (dev_avail_update d) = Fatal code ->
  iteration d s
  = (fst (refill s) ++
       [Select (dev_select d); PollRevents (dev_revents_ret d);
        PcmState (dev_state d); AvailUpdate (dev_avail_update d)],
     Exit "snd_pcm_avail_update" code).
Proof.
  intros Hw Hst Hc. rewrite iteration_writable by exact Hw.
  unfold Alsa2.on_writable. unfold classify_avail_update in Hc.
  destruct (dev_avail_update d <? 0); [|discriminate Hc].
  destruct (dev_avail_update d =? - EPIPE); [discriminate Hc|].
  injection Hc as <-.
  destruct (dev_state d); try discriminate Hst;
    cbv beta iota delta [after]; rewrite <- ?app_assoc; reflexivity.
Qed.

(** The same at the write. *)
Lemma writei_fatal d s code :
  woken_writable d = true -> state_normal (dev_state d) = true ->
  0 < frames_this_iter d (snd (refill s)) ->
  classify_writei (dev_writei d (frames_this_iter d (snd (refill s))))
  = Fatal code ->
  iteration d s
  = (fst (refill s) ++
       [Select (dev_select d); PollRevents (dev_revents_ret d);
        PcmState (dev_state d); AvailUpdate (dev_avail_update d);
        Writei (local_data_ptr (snd (refill s)))
          (frames_this_iter d (snd (refill s)))
          (dev_writei d (frames_this_iter d (snd (refill s))))],
     Exit "snd_pcm_writei" code).
Proof.
  intros Hw Hst Hn Hc.
  assert (Hav : 0 <= dev_avail_update d)
    by (unfold frames_this_iter in Hn; lia).
  rewrite (normal_pass d s Hw Hst Hav).
  apply Z.ltb_lt in Hn. rewrite Hn, write_frames_classified, Hc.
  cbv beta iota delta [after]. rewrite <- ?app_assoc. reflexivity.
Qed.

(** C8. For a rate between 1 and 2^24 (where binary32 counts exactly) and
    a phase that is an integer below the rate: one sample moves the phase
    to its successor modulo the rate, which is again below the rate;
    generating [n] samples moves it by [n] modulo the rate; and the phase
    after any pass, or any number of passes from the start of the program,
    is the number of samples generated so far modulo the rate, so nothing
    but generating samples moves it. *)
Theorem C8_phase_wraps_and_only_the_generator_moves_it p :
  0 < rate <= F32.two24 -> 0 <= p < rate ->
  (next_phase rate (F32.of_Z p) = F32.of_Z ((p + 1) mod rate)
   /\ 0 <= (p + 1) mod rate < rate
   /\ F32.geb (next_phase rate (F32.of_Z p)) (F32.of_Z rate) = false)
  /\ (forall buffer n,
        snd (generate_data sine_sample buffer n rate (F32.of_Z p))
        = F32.of_Z ((p + Z.of_nat n) mod rate))
  /\ (forall d s s',
        phase s = F32.of_Z p -> snd (iteration d s) = Continue s' ->
        phase s'
        = F32.of_Z ((p + frames_generated (fst (iteration d s))) mod rate))
  /\ (forall ds stack s',
        snd (run ds (Alsa2.init stack)) = Continue s' ->
        phase s'
        = F32.of_Z (frames_generated (fst (run ds (Alsa2.init stack)))
                    mod rate)).
Proof.
  intros Hr Hp.
  pose proof (Z.mod_pos_bound (p + 1) rate (proj1 Hr)) as Hm.
  split; [split; [|split]|split; [|split]].
  - apply next_phase_of_Z; assumption.
  - exact Hm.
  - rewrite next_phase_of_Z by assumption. rewrite geb_of_Z by lia.
    apply Z.leb_gt. lia.
  - intros buffer n. unfold Alsa2.generate_data.
    rewrite generate_loop_phase. apply phase_after_of_Z; assumption.
  - intros d s s' Hs E. apply iteration_phase; assumption.
  - intros ds stack s' E.
    apply (run_phase ds (Alsa2.init stack) s' 0 Hr); [lia|reflexivity|exact E].
Qed.

End Loop.

(** The comparison [phase >= rate] converts the rate to [float]; 16777217
    has no binary32 of its own and becomes 2^24. *)
Lemma of_Z_16777217 : F32.of_Z 16777217 = F32.of_Z F32.two24.
Proof. vm_compute. reflexivity. Qed.

(** So at a rate of 16777217 the generator steps as it does at 2^24. *)
Lemma next_phase_16777217 phase :
  next_phase 16777217 phase = next_phase F32.two24 phase.
Proof. unfold next_phase. rewrite of_Z_16777217. reflexivity. Qed.

Lemma phase_after_16777217 n : forall phase,
  phase_after n 16777217 phase = phase_after n F32.two24 phase.
Proof.
  induction n as [|n IH]; intros phase; cbn [phase_after]; [reflexivity|].
  rewrite next_phase_16777217. apply IH.
Qed.

(** At that rate the phase 16777215 is the one the generator has reached
    after 16777215 samples from the start of the program. *)
Lemma phase_16777215_is_reached :
  phase_after (Z.to_nat 16777215) 16777217 F32.zero = F32.of_Z 16777215.
Proof.
  rewrite phase_after_16777217.
  change F32.zero with (F32.of_Z 0).
  rewrite phase_after_of_Z by (unfold F32.two24; lia).
  rewrite Z2Nat.id by lia. f_equal.
Qed.

(** C8 as stated, for every call to the generator, fails at a rate above
    2^24. At the rate 16777217 a call for one sample at the phase 16777215
    adds one, finds 2^24 not below the converted rate, and subtracts it:
    the phase is 0, a sample before the rate is reached, and not
    16777216 = (16777215 + 1) mod 16777217. *)
Lemma C8_rate_16777217_wraps_a_sample_early :
  ~ (forall rate p n buffer,
       0 < rate < 2 ^ 32 -> 0 <= p < rate ->
       snd (generate_data Scenario.ramp buffer n rate (F32.of_Z p))
       = F32.of_Z ((p + Z.of_nat n) mod rate)).
Proof.
  intros H.
  assert (Hr : 0 < 16777217 < 2 ^ 32) by (split; reflexivity).
  assert (Hp : 0 <= 16777215 < 16777217) by (split; [discriminate|reflexivity]).
  specialize (H 16777217 16777215 1%nat [] Hr Hp).
  vm_compute in H. discriminate H.
Qed.

(** C3. The two call sites do not sort [-ESTRPIPE] alike: returned by
    snd_pcm_writei it is a suspension, followed by resume and prepare, and
    the loop goes on; returned by snd_pcm_avail_update it is fatal, and the
    process exits with that code without any recovery call. *)
Theorem C3_estrpipe_from_the_space_query_is_fatal
        (sine_sample : F32.float -> Z -> F32.float) (stack : list F32.float) :
  classify_writei (- ESTRPIPE) = Suspended
  /\ classify_avail_update (- ESTRPIPE) = Fatal (- ESTRPIPE)
  /\ Alsa2.iteration sine_sample 4 4 (Scenario.faulty (- ESTRPIPE) 0)
       (Alsa2.init stack)
     = ([Generate 4; Select 1; PollRevents 0;
         PcmState SND_PCM_STATE_RUNNING; AvailUpdate (-86)],
        Exit "snd_pcm_avail_update" (-86))
  /\ fst (Alsa2.iteration sine_sample 4 4 (Scenario.faulty 2 (- ESTRPIPE))
            (Alsa2.init stack))
     = [Generate 4; Select 1; PollRevents 0;
        PcmState SND_PCM_STATE_RUNNING; AvailUpdate 2;
        Writei (Some 0) 2 (-86); PcmResume 0; PcmPrepare 0]
  /\ snd (Alsa2.iteration sine_sample 4 4 (Scenario.faulty 2 (- ESTRPIPE))
            (Alsa2.init stack))
     = Continue (snd (Alsa2.refill sine_sample 4 4 (Alsa2.init stack))).
Proof. repeat split. Qed.

(** *** The statements above at concrete inputs *)

Lemma C1_scenario_pass :
  let d := Scenario.short_write 3 1 in
  let s := Alsa2.init (Scenario.silence 4) in
  woken_writable d = true /\ state_normal (dev_state d) = true
  /\ filter is_write (fst (Alsa2.iteration Scenario.ramp 4 4 d s))
     = [Writei (Some 0) 3 1].
Proof.
  intros d s. split; [reflexivity|]. split; [reflexivity|].
  rewrite (proj1 (proj2 (C1_writes_min_of_space_and_pending Scenario.ramp 4 4
                           d s eq_refl eq_refl))).
  reflexivity.
Defined.

Lemma C2_short_write_of_one_frame :
  let d := Scenario.short_write 3 1 in
  let s := Alsa2.init (Scenario.silence 4) in
  woken_writable d = true /\ state_normal (dev_state d) = true
  /\ exists s',
       snd (Alsa2.iteration Scenario.ramp 4 4 d s) = Continue s'
       /\ local_data_ptr s' = Some 1
       /\ frames_to_write_from_local_buffer s' = 3.
Proof.
  intros d s. split; [reflexivity|]. split; [reflexivity|].
  assert (Hshort :
    0 <= dev_writei d
           (frames_this_iter d (snd (Alsa2.refill Scenario.ramp 4 4 s)))
       < frames_this_iter d (snd (Alsa2.refill Scenario.ramp 4 4 s))).
  { vm_compute. split; [discriminate|reflexivity]. }
  destruct (C2_short_write_advances_by_accepted Scenario.ramp 4 4 d s
              eq_refl eq_refl Hshort)
    as (s' & E & Hptr & Hlen & _).
  exists s'. split; [exact E|].
  vm_compute in Hptr. vm_compute in Hlen.
  split; [exact Hptr|exact Hlen].
Defined.

Lemma C4_suspended_without_resume :
  let s := Alsa2.init (Scenario.silence 4) in
  (woken_writable Scenario.suspended_state = true
   /\ dev_resume Scenario.suspended_state <= 0
   /\ fst (Alsa2.iteration Scenario.ramp 4 4 Scenario.suspended_state s)
      = [Generate 4; Select 1; PollRevents 0;
         PcmState SND_PCM_STATE_SUSPENDED; PcmResume 0; PcmPrepare 0])
  /\ (woken_writable (Scenario.faulty 2 (- ESTRPIPE)) = true
      /\ dev_resume (Scenario.faulty 2 (- ESTRPIPE)) <= 0
      /\ fst (Alsa2.iteration Scenario.ramp 4 4
                (Scenario.faulty 2 (- ESTRPIPE)) s)
         = [Generate 4; Select 1; PollRevents 0;
            PcmState SND_PCM_STATE_RUNNING; AvailUpdate 2;
            Writei (Some 0) 2 (-86); PcmResume 0; PcmPrepare 0]).
Proof.
  intros s. split.
  - split; [reflexivity|]. split; [reflexivity|].
    rewrite (proj1 (C4_resume_not_possible_falls_back_to_prepare
                      Scenario.ramp 4 4 Scenario.suspended_state s
                      eq_refl ltac:(discriminate)) eq_refl).
    reflexivity.
  - split; [reflexivity|]. split; [reflexivity|].
    rewrite (proj1 (proj2 (C4_resume_not_possible_falls_back_to_prepare
                             Scenario.ramp 4 4
                             (Scenario.faulty 2 (- ESTRPIPE)) s
                             eq_refl ltac:(discriminate)))
               eq_refl eq_refl eq_refl).
    reflexivity.
Defined.

Lemma C5_underrun_at_the_space_query :
  let d := Scenario.faulty (- EPIPE) 0 in
  let s := Alsa2.init (Scenario.silence 4) in
  fault_classified d (snd (Alsa2.refill Scenario.ramp 4 4 s)) = true
  /\ snd (Alsa2.iteration Scenario.ramp 4 4 d s)
     = Continue (snd (Alsa2.refill Scenario.ramp 4 4 s))
  /\ length (filter is_prepare (fst (Alsa2.iteration Scenario.ramp 4 4 d s)))
     = 1%nat.
Proof.
  intros d s. split; [reflexivity|].
  pose proof (C5_recovery_keeps_cursor_and_buffer Scenario.ramp 4 4 d s
                eq_refl) as [Hkeep Hprep].
  split.
  - destruct (snd (Alsa2.iteration Scenario.ramp 4 4 d s)) as [s'|msg code] eqn:E.
    + f_equal. exact (proj1 (Hkeep s' eq_refl)).
    + discriminate E.
  - exact (proj1 (proj2 (Hprep eq_refl eq_refl))).
Defined.

Lemma C6_books_of_a_mixed_run :
  let ds := [Scenario.writable 2; Scenario.short_write 3 1;
             Scenario.faulty (- EPIPE) 0; Scenario.interrupted;
             Scenario.writable 9; Scenario.not_writable] in
  Forall takes_at_most_requested ds
  /\ frames_written
       (fst (Alsa2.run Scenario.ramp 4 4 ds (Alsa2.init (Scenario.silence 4))))
     <= frames_generated
          (fst (Alsa2.run Scenario.ramp 4 4 ds
                  (Alsa2.init (Scenario.silence 4)))).
Proof.
  intros ds.
  assert (H : Forall takes_at_most_requested ds).
  { repeat constructor; intros n Hn; cbn; lia. }
  split; [exact H|].
  exact (proj1 (C6_written_never_exceeds_generated Scenario.ramp 4 4 ds
                  (Scenario.silence 4) H)).
Defined.

Lemma C7_interrupted_first_wait :
  dev_select Scenario.interrupted = -1
  /\ dev_errno Scenario.interrupted = EINTR
  /\ Alsa2.iteration Scenario.ramp 4 4 Scenario.interrupted
       (Alsa2.init (Scenario.silence 4))
     = (fst (Alsa2.refill Scenario.ramp 4 4 (Alsa2.init (Scenario.silence 4)))
          ++ [Select (-1)],
        Continue
          (snd (Alsa2.refill Scenario.ramp 4 4
                  (Alsa2.init (Scenario.silence 4))))).
Proof.
  split; [reflexivity|]. split; [reflexivity|].
  exact (proj1 (C7_interrupted_wait_is_retried Scenario.ramp 4 4
                  Scenario.interrupted (Alsa2.init (Scenario.silence 4))
                  eq_refl eq_refl)).
Defined.

Lemma C8_phase_at_44100 :
  0 < 44100 <= F32.two24 /\ 0 <= 44099 < 44100
  /\ next_phase 44100 (F32.of_Z 44099) = F32.of_Z 0.
Proof.
  assert (Hr : 0 < 44100 <= F32.two24) by (split; [reflexivity|discriminate]).
  assert (Hp : 0 <= 44099 < 44100) by (split; [discriminate|reflexivity]).
  split; [exact Hr|]. split; [exact Hp|].
  exact (proj1 (proj1 (C8_phase_wraps_and_only_the_generator_moves_it
                         Scenario.ramp 4 44100 44099 Hr Hp))).
Defined.

Lemma C9_two_blocks_of_three :
  length (Scenario.silence 3) = 3%nat
  /\ length (Scenario.silence 6) = (3 + 3)%nat
  /\ fst (generate_data Scenario.ramp (Scenario.silence 6) (3 + 3) 4 F32.zero)
     = fst (generate_data Scenario.ramp (Scenario.silence 3) 3 4 F32.zero)
       ++ fst (generate_data Scenario.ramp (Scenario.silence 3) 3 4
                 (snd (generate_data Scenario.ramp (Scenario.silence 3) 3 4
                         F32.zero))).
Proof.
  split; [reflexivity|]. split; [reflexivity|].
  rewrite (C9_two_blocks_continue_the_phase Scenario.ramp 4 F32.zero 3
             (Scenario.silence 3) (Scenario.silence 3) (Scenario.silence 6)
             eq_refl eq_refl eq_refl).
  reflexivity.
Defined.

Lemma C10_pass_without_pollout :
  let s := Alsa2.init (Scenario.silence 4) in
  polled_out Scenario.not_writable = false
  /\ filter is_write
       (fst (Alsa2.iteration Scenario.ramp 4 4 Scenario.not_writable s)) = [].
Proof.
  intros s. split; [reflexivity|].
  exact (proj1 (proj1 (C10_only_the_refill_without_pollout Scenario.ramp 4 4
                         Scenario.not_writable s) eq_refl)).
Defined.

End Alsa2Facts.

(** ** alsa.c: where the draft differs *)
Module AlsaFacts.
Import Env Alsa F32Facts.

Section Draft.

Variable sine_sample : F32.float -> Z -> F32.float.
Variable data_size : nat.
Variable rate : Z.

Local Abbreviation iteration := (Alsa.iteration sine_sample data_size rate).

(** An interrupted select() ends the process. *)
Lemma draft_interrupted_wait_exits d s :
  dev_select d = -1 ->
  iteration d s = ([Select (-1)], Exit "select" (dev_errno d)).
Proof.
  intros H. unfold Alsa.iteration. rewrite H. reflexivity.
Qed.

(** Every write is given the start of the buffer, whatever the cursor. *)
Lemma draft_writes_from_the_start d s p m r :
  In (Writei p m r) (fst (iteration d s)) -> p = Some 0.
Proof.
  unfold Alsa.iteration, Alsa.on_writable, Alsa.refill.
  destruct (dev_select d =? -1); cbn; [intuition congruence|].
  destruct (dev_revents_ret d <? 0); cbn; [intuition congruence|].
  destruct (Z.land (dev_revents d) POLLOUT =? 0); cbn; [intuition congruence|].
  destruct (data_len s =? 0).
  - destruct (generate_data _ _ _ _ _). cbn.
    destruct (dev_writei d _ <? 0); cbn; intuition congruence.
  - cbn. destruct (dev_writei d _ <? 0); cbn; intuition congruence.
Qed.

(** Without POLLOUT the pass changes nothing: the refill sits inside the
    branch. *)
Lemma draft_idle_pass_changes_nothing d s s' :
  polled_out d = false -> snd (iteration d s) = Continue s' -> s' = s.
Proof.
  intros H. unfold polled_out in H. apply negb_false_iff in H.
  unfold Alsa.iteration. rewrite H.
  destruct (dev_select d =? -1); cbn; [discriminate|].
  destruct (dev_revents_ret d <? 0); cbn; [discriminate|].
  intros E. congruence.
Qed.

(** The phase is not wrapped: it counts on past the rate. *)
Lemma draft_phase_not_wrapped n : forall idx buffer p,
  0 <= p -> p + Z.of_nat n <= F32.two24 ->
  snd (generate_loop sine_sample n idx rate buffer (F32.of_Z p))
  = F32.of_Z (p + Z.of_nat n).
Proof.
  induction n as [|n IH]; intros idx buffer p Hp Hn; cbn [generate_loop].
  - rewrite Z.add_0_r. reflexivity.
  - rewrite add_one by lia. rewrite IH by lia. f_equal. lia.
Qed.

End Draft.

End AlsaFacts.

(** ** The generators of both files *)
Module GeneratorFacts.
Import Env F32Facts Alsa2Facts.

Section Waves.

Variable sine_sample : F32.float -> Z -> F32.float.

Lemma block_lookup n : forall k rate phase,
  (k < n)%nat ->
  Alsa2.block sine_sample n rate phase !! k
  = Some (sine_sample (Alsa2.phase_after k rate phase) rate).
Proof.
  induction n as [|n IH]; intros k rate phase Hk; [lia|].
  destruct k as [|k]; cbn [Alsa2.block Alsa2.phase_after]; [reflexivity|].
  apply IH. lia.
Qed.

Lemma generate_data_lookup buffer n rate phase :
  (n <= length buffer)%nat ->
  length (fst (Alsa2.generate_data sine_sample buffer n rate phase))
  = length buffer
  /\ (forall k, (k < n)%nat ->
        fst (Alsa2.generate_data sine_sample buffer n rate phase) !! k
        = Some (sine_sample (Alsa2.phase_after k rate phase) rate))
  /\ (forall k, (n <= k)%nat ->
        fst (Alsa2.generate_data sine_sample buffer n rate phase) !! k
        = buffer !! k).
Proof.
  intros Hn. rewrite generate_data_spec by exact Hn. cbn [fst].
  pose proof (length_block sine_sample n rate phase) as Hb.
  split; [|split].
  - rewrite length_app, length_drop, Hb. lia.
  - intros k Hk. rewrite lookup_app_l by lia. apply block_lookup. exact Hk.
  - intros k Hk. rewrite lookup_app_r by lia. rewrite lookup_drop, Hb.
    f_equal. lia.
Qed.

(** alsa2.c, generate_data: a call for [n] samples on a buffer that has
    room for them overwrites its first [n] elements, sample [k] being the
    waveform at the phase reached after [k] steps, and keeps the length of
    the buffer and every element from [n] on. *)
Theorem generate_data_fills_the_first_n buffer n rate phase :
  (n <= length buffer)%nat ->
  length (fst (Alsa2.generate_data sine_sample buffer n rate phase))
  = length buffer
  /\ (forall k, (k < n)%nat ->
        fst (Alsa2.generate_data sine_sample buffer n rate phase) !! k
        = Some (sine_sample (Alsa2.phase_after k rate phase) rate))
  /\ (forall k, (n <= k)%nat ->
        fst (Alsa2.generate_data sine_sample buffer n rate phase) !! k
        = buffer !! k).
Proof. apply generate_data_lookup. Qed.

(** alsa2.c, generate_data: for a rate between 1 and 2^24 and an integer
    phase below the rate, sample [k] is the waveform at phase
    [(p + k) mod rate]; the block repeats itself every [rate] samples. *)
Theorem generated_wave_has_period_rate buffer n rate p :
  0 < rate <= F32.two24 -> 0 <= p < rate -> (n <= length buffer)%nat ->
  (forall k, (k < n)%nat ->
     fst (Alsa2.generate_data sine_sample buffer n rate (F32.of_Z p)) !! k
     = Some (sine_sample (F32.of_Z ((p + Z.of_nat k) mod rate)) rate))
  /\ (forall k, (k + Z.to_nat rate < n)%nat ->
        fst (Alsa2.generate_data sine_sample buffer n rate (F32.of_Z p))
          !! (k + Z.to_nat rate)%nat
        = fst (Alsa2.generate_data sine_sample buffer n rate (F32.of_Z p))
            !! k).
Proof.
  intros Hr Hp Hn.
  assert (A : forall k, (k < n)%nat ->
     fst (Alsa2.generate_data sine_sample buffer n rate (F32.of_Z p)) !! k
     = Some (sine_sample (F32.of_Z ((p + Z.of_nat k) mod rate)) rate)).
  { intros k Hk.
    rewrite (proj1 (proj2 (generate_data_lookup buffer n rate
                             (F32.of_Z p) Hn)) k Hk).
    rewrite phase_after_of_Z by assumption. reflexivity. }
  split; [exact A|].
  intros k Hk. rewrite !A by lia. do 3 f_equal.
  rewrite Nat2Z.inj_add, Z2Nat.id by lia.
  rewrite Z.add_assoc, <- Zplus_mod_idemp_r, Z_mod_same_full, Z.add_0_r.
  reflexivity.
Qed.

Lemma generators_agree_in_loop n : forall idx rate buffer p,
  0 < rate <= F32.two24 -> 0 <= p -> p + Z.of_nat n <= rate ->
  fst (Alsa.generate_loop sine_sample n idx rate buffer (F32.of_Z p))
  = fst (Alsa2.generate_loop sine_sample n idx rate buffer (F32.of_Z p)).
Proof.
  induction n as [|n IH]; intros idx rate buffer p Hr Hp Hn;
    cbn [Alsa.generate_loop Alsa2.generate_loop]; [reflexivity|].
  rewrite add_one by (unfold F32.two24 in *; lia).
  destruct n as [|n].
  - reflexivity.
  - rewrite next_phase_of_Z by lia. rewrite Z.mod_small by lia.
    apply IH; lia.
Qed.

(** Both files, generate_data: from an integer phase [p], as long as the
    block ends before the phase reaches the rate ([p + n <= rate]), the
    draft's generator and the wrapping one write the same samples. *)
Theorem generators_agree_before_the_wrap buffer n rate p :
  0 < rate <= F32.two24 -> 0 <= p -> p + Z.of_nat n <= rate ->
  fst (Alsa.generate_data sine_sample buffer n rate (F32.of_Z p))
  = fst (Alsa2.generate_data sine_sample buffer n rate (F32.of_Z p)).
Proof.
  intros Hr Hp Hn. apply generators_agree_in_loop; assumption.
Qed.

Lemma draft_loop_phase n : forall idx rate buffer p,
  0 <= p <= F32.two24 ->
  snd (Alsa.generate_loop sine_sample n idx rate buffer (F32.of_Z p))
  = F32.of_Z (Z.min (p + Z.of_nat n) F32.two24).
Proof.
  induction n as [|n IH]; intros idx rate buffer p Hp;
    cbn [Alsa.generate_loop].
  - rewrite Z.add_0_r, Z.min_l by lia. reflexivity.
  - destruct (Z.eq_dec p F32.two24) as [->|Hne].
    + rewrite add_one_two24, IH by lia. f_equal. lia.
    + rewrite add_one by lia. rewrite IH by lia. f_equal. lia.
Qed.

(** alsa.c, generate_data: the [float] phase counts the samples up to
    2^24 = 16777216 and then stays there, [phase += 1.0] rounding back to
    the same number. *)
Theorem draft_phase_stops_at_two24 buffer n rate p :
  0 <= p <= F32.two24 ->
  snd (Alsa.generate_data sine_sample buffer n rate (F32.of_Z p))
  = F32.of_Z (Z.min (p + Z.of_nat n) F32.two24).
Proof.
  intros Hp. apply draft_loop_phase. exact Hp.
Qed.

Lemma draft_loop_spec n : forall idx rate buffer phase,
  (idx + n <= length buffer)%nat ->
  fst (Alsa.generate_loop sine_sample n idx rate buffer phase)
  = take idx buffer ++ Stream.draft_block sine_sample n rate phase
      ++ drop (idx + n) buffer.
Proof.
  induction n as [|n IH]; intros idx rate buffer phase Hlen;
    cbn [Alsa.generate_loop Stream.draft_block].
  - rewrite Nat.add_0_r. cbn [app fst]. rewrite take_drop. reflexivity.
  - rewrite IH by (rewrite length_insert; lia).
    rewrite (take_S_r _ idx (sine_sample phase rate))
      by (apply list_lookup_insert_eq; lia).
    rewrite take_insert_ge by lia. rewrite drop_insert_lt by lia.
    rewrite <- app_assoc. cbn [app].
    replace (S idx + n)%nat with (idx + S n)%nat by lia. reflexivity.
Qed.

Lemma draft_block_frozen n : forall rate,
  Stream.draft_block sine_sample n rate (F32.of_Z F32.two24)
  = replicate n (sine_sample (F32.of_Z F32.two24) rate).
Proof.
  induction n as [|n IH]; intros rate; cbn [Stream.draft_block replicate];
    [reflexivity|].
  rewrite add_one_two24, IH. reflexivity.
Qed.

(** alsa.c, generate_data: once the phase has reached 2^24, every sample
    of every further block is the same value. *)
Theorem draft_wave_freezes buffer n rate :
  (n <= length buffer)%nat ->
  fst (Alsa.generate_data sine_sample buffer n rate (F32.of_Z F32.two24))
  = replicate n (sine_sample (F32.of_Z F32.two24) rate) ++ drop n buffer.
Proof.
  intros Hn. unfold Alsa.generate_data. rewrite draft_loop_spec by lia.
  rewrite take_0, draft_block_frozen. reflexivity.
Qed.

End Waves.

End GeneratorFacts.

(** ** alsa2.c: what reaches the device *)
Module StreamFacts.
Import Env F32Facts Alsa2Facts Stream.

Section Loop.

Variable sine_sample : F32.float -> Z -> F32.float.
Variable local_data_buffer_size : nat.
Variable rate : Z.

Local Abbreviation refill := (Alsa2.refill sine_sample local_data_buffer_size rate).
Local Abbreviation iteration := (Alsa2.iteration sine_sample local_data_buffer_size rate).
Local Abbreviation run := (Alsa2.run sine_sample local_data_buffer_size rate).
Local Abbreviation pass_sent := (Stream.pass_sent sine_sample local_data_buffer_size rate).
Local Abbreviation run_sent := (Stream.run_sent sine_sample local_data_buffer_size rate).
Local Abbreviation cursor_ok := (Stream.cursor_ok local_data_buffer_size).

Ltac cases :=
  repeat match goal with
    | |- context [if ?b then _ else _] =>
        lazymatch type of b with bool => destruct b eqn:?; cbn end
    end.

Ltac arith :=
  unfold EPIPE, ESTRPIPE, EINTR in *;
  repeat match goal with
    | H : (_ <? _) = true |- _ => apply Z.ltb_lt in H
    | H : (_ <? _) = false |- _ => apply Z.ltb_ge in H
    | H : (_ >? _) = true |- _ => rewrite Z.gtb_ltb in H; apply Z.ltb_lt in H
    | H : (_ >? _) = false |- _ => rewrite Z.gtb_ltb in H; apply Z.ltb_ge in H
    | H : (_ =? _) = true |- _ => apply Z.eqb_eq in H
    | H : (_ =? _) = false |- _ => apply Z.eqb_neq in H
    end.

Ltac trace_ok :=
  repeat (apply List.Forall_cons;
          [first [ let H := fresh in intros H; cbn in H; discriminate H
                 | intros _; split; [reflexivity|assumption] ]|]);
  apply List.Forall_nil.

(** A pass from the wait on: either the device takes no frame and the
    variables stay (or the process exits), or one write takes [ret] frames
    from the cursor. *)
Lemma pass_shape d s buffer :
  (flat_map (taken buffer) (fst (Alsa2.wait_and_dispatch d s)) = []
   /\ Forall (fun c => is_write c = true ->
                c = Writei (Alsa2.local_data_ptr s)
                      (Alsa2.frames_this_iter d s)
                      (dev_writei d (Alsa2.frames_this_iter d s))
                /\ 0 < Alsa2.frames_this_iter d s)
        (fst (Alsa2.wait_and_dispatch d s))
   /\ (snd (Alsa2.wait_and_dispatch d s) = Continue s
       \/ exists msg code, snd (Alsa2.wait_and_dispatch d s) = Exit msg code))
  \/ (0 < Alsa2.frames_this_iter d s
      /\ 0 <= dev_writei d (Alsa2.frames_this_iter d s)
      /\ flat_map (taken buffer) (fst (Alsa2.wait_and_dispatch d s))
         = window buffer (Alsa2.local_data_ptr s)
             (dev_writei d (Alsa2.frames_this_iter d s))
      /\ filter is_write (fst (Alsa2.wait_and_dispatch d s))
         = [Writei (Alsa2.local_data_ptr s) (Alsa2.frames_this_iter d s)
              (dev_writei d (Alsa2.frames_this_iter d s))]
      /\ snd (Alsa2.wait_and_dispatch d s)
         = Continue (advanced s (dev_writei d (Alsa2.frames_this_iter d s)))).
Proof.
  unfold Alsa2.frames_this_iter, advanced.
  unfold Alsa2.wait_and_dispatch, Alsa2.on_writable, Alsa2.write_frames,
    Alsa2.resume_then_continue, Alsa2.prepare_then_continue.
  rewrite min_as_coded, Z.gtb_ltb.
  set (n := Z.min (dev_avail_update d)
              (Alsa2.frames_to_write_from_local_buffer s)).
  destruct (dev_select d =? -1); cbn.
  { left. destruct (dev_errno d =? EINTR); cbn;
      (split; [reflexivity|split; [trace_ok|eauto]]). }
  destruct (dev_revents_ret d <? 0); cbn.
  { left. split; [reflexivity|split; [trace_ok|eauto]]. }
  destruct (Z.land (dev_revents d) POLLOUT =? 0); cbn.
  { left. split; [reflexivity|split; [trace_ok|eauto]]. }
  destruct (Z.ltb_spec 0 n) as [Hn|Hn].
  - destruct (Z.ltb_spec (dev_writei d n) 0) as [Hret|Hret].
    + left. destruct (dev_state d); cbn; cases;
        try (exfalso; arith; lia); rewrite ?app_nil_r;
        (split; [reflexivity|split; [trace_ok|eauto]]).
    + destruct (dev_state d); cbn; cases;
        try (exfalso; arith; lia);
        try (left; split; [reflexivity|split; [trace_ok|eauto]]);
        right; rewrite ?app_nil_r; repeat split; assumption.
  - left. destruct (dev_state d); cbn; cases;
      try (exfalso; arith; lia);
      (split; [reflexivity|split; [trace_ok|eauto]]).
Qed.

Lemma window_split buffer off r f :
  0 <= off -> 0 <= r <= f ->
  window buffer (Some off) r ++ window buffer (Some (off + r)) (f - r)
  = window buffer (Some off) f.
Proof.
  intros Hoff Hr. unfold window.
  rewrite Z2Nat.inj_add by lia. rewrite <- drop_drop, take_take_drop.
  f_equal. lia.
Qed.

Lemma flat_map_taken_refill buffer s :
  flat_map (taken buffer) (fst (refill s)) = [].
Proof.
  unfold Alsa2.refill.
  destruct (Alsa2.frames_to_write_from_local_buffer s =? 0);
    [destruct (Alsa2.generate_data _ _ _ _ _)|]; reflexivity.
Qed.

Lemma pass_sent_eq d s :
  pass_sent d s
  = flat_map (taken (Alsa2.local_data_buffer (snd (refill s))))
      (fst (Alsa2.wait_and_dispatch d (snd (refill s)))).
Proof.
  unfold Stream.pass_sent. rewrite iteration_eq, fst_after, flat_map_app.
  rewrite flat_map_taken_refill. reflexivity.
Qed.

(** The refill keeps the cursor sound and puts the new block behind what
    is pending (nothing, when it runs). *)
Lemma refill_cursor s :
  cursor_ok s ->
  cursor_ok (snd (refill s))
  /\ pending (snd (refill s))
     = pending s
       ++ Alsa2.block sine_sample
            (Z.to_nat (frames_generated (fst (refill s)))) rate
            (Alsa2.phase s)
  /\ Alsa2.phase (snd (refill s))
     = Alsa2.phase_after (Z.to_nat (frames_generated (fst (refill s)))) rate
         (Alsa2.phase s).
Proof.
  intros (Hlen & Hf & Hptr).
  destruct (Z.eq_dec (Alsa2.frames_to_write_from_local_buffer s) 0) as [E|E].
  - rewrite (refill_empty sine_sample local_data_buffer_size rate s E).
    cbn [fst snd frames_generated].
    rewrite Z.add_0_r, Nat2Z.id.
    rewrite generate_data_spec by lia. cbn [fst snd].
    rewrite drop_ge by lia. rewrite app_nil_r.
    pose proof (length_block sine_sample local_data_buffer_size rate
                  (Alsa2.phase s)) as Hb.
    split; [|split].
    + unfold Stream.cursor_ok. cbn. split; [exact Hb|]. split; [lia|].
      intros _. f_equal. lia.
    + unfold pending at 1. cbn [Alsa2.local_data_buffer Alsa2.local_data_ptr
        Alsa2.frames_to_write_from_local_buffer window].
      rewrite Nat2Z.id. change (Z.to_nat 0) with 0%nat. rewrite drop_0.
      rewrite take_ge by lia.
      unfold pending, window. rewrite E. change (Z.to_nat 0) with 0%nat.
      destruct (Alsa2.local_data_ptr s); reflexivity.
    + reflexivity.
  - rewrite (refill_nonempty sine_sample local_data_buffer_size rate s E).
    cbn [fst snd frames_generated]. change (Z.to_nat 0) with 0%nat.
    cbn [Alsa2.block Alsa2.phase_after]. rewrite app_nil_r.
    split; [|split]; [|reflexivity..]. split; [exact Hlen|]. split; assumption.
Qed.

Lemma Forall_from_writes (P : call -> Prop) tr :
  (forall c, is_write c = false -> P c) ->
  Forall P (filter is_write tr) -> Forall P tr.
Proof.
  intros Hother. induction tr as [|c tr IH]; intros H; [constructor|].
  destruct (is_write c) eqn:E.
  - rewrite filter_cons_True in H by (rewrite E; exact I).
    apply Forall_cons_1 in H as [Hc H]. constructor; [exact Hc|apply IH, H].
  - rewrite filter_cons_False in H by (rewrite E; exact id).
    constructor; [apply Hother, E|apply IH, H].
Qed.

(** From the wait on, with a sound cursor and a device that takes no more
    than it is given: every write stays inside the buffer, and what the
    device took followed by what is still pending is what was pending. *)
Lemma dispatch_cursor d s :
  cursor_ok s -> Alsa2.takes_at_most_requested d ->
  Forall (write_in_bounds local_data_buffer_size)
    (fst (Alsa2.wait_and_dispatch d s))
  /\ match snd (Alsa2.wait_and_dispatch d s) with
     | Continue s' =>
         cursor_ok s'
         /\ flat_map (taken (Alsa2.local_data_buffer s))
              (fst (Alsa2.wait_and_dispatch d s)) ++ pending s'
            = pending s
         /\ Alsa2.phase s' = Alsa2.phase s
     | Exit _ _ =>
         flat_map (taken (Alsa2.local_data_buffer s))
           (fst (Alsa2.wait_and_dispatch d s)) = []
     end.
Proof.
  intros (Hlen & Hf & Hptr) Hdev.
  assert (Hin : 0 < Alsa2.frames_this_iter d s ->
                write_in_bounds local_data_buffer_size
                  (Writei (Alsa2.local_data_ptr s) (Alsa2.frames_this_iter d s)
                     (dev_writei d (Alsa2.frames_this_iter d s)))).
  { intros Hn. unfold Alsa2.frames_this_iter in *. cbn [write_in_bounds].
    exists (Z.of_nat local_data_buffer_size
            - Alsa2.frames_to_write_from_local_buffer s).
    split; [apply Hptr; lia|]. lia. }
  destruct (pass_shape d s (Alsa2.local_data_buffer s))
    as [(Hsent & Hwr & Hout)|(Hn & Hret & Hsent & Hwr & Hout)].
  - split.
    + eapply Forall_impl; [exact Hwr|]. intros c Hc. cbn beta in Hc.
      destruct (is_write c) eqn:E.
      * destruct (Hc eq_refl) as [-> Hn]. apply Hin, Hn.
      * destruct c; try exact I. discriminate E.
    + destruct Hout as [->|(msg & code & ->)].
      * rewrite Hsent. split; [|split]; [|reflexivity..].
        split; [exact Hlen|]. split; assumption.
      * exact Hsent.
  - split.
    + apply Forall_from_writes.
      * intros c E. destruct c; try exact I. discriminate E.
      * rewrite Hwr. constructor; [apply Hin, Hn|constructor].
    + rewrite Hout, Hsent.
      pose proof (Hdev _ Hn) as Hle. unfold Alsa2.frames_this_iter in *.
      assert (Hnz : Alsa2.frames_to_write_from_local_buffer s <> 0) by lia.
      split; [|split]; [| |reflexivity].
      * unfold Stream.cursor_ok, advanced. cbn. split; [exact Hlen|].
        split; [lia|]. intros _. rewrite (Hptr Hnz). cbn. f_equal. lia.
      * unfold pending, advanced. cbn. rewrite (Hptr Hnz). cbn [ptr_add].
        apply window_split; lia.
Qed.

Lemma write_in_bounds_refill s :
  Forall (write_in_bounds local_data_buffer_size) (fst (refill s)).
Proof.
  unfold Alsa2.refill.
  destruct (Alsa2.frames_to_write_from_local_buffer s =? 0);
    [destruct (Alsa2.generate_data _ _ _ _ _)|]; repeat constructor.
Qed.

(** One pass of the loop. *)
Lemma iteration_cursor d s :
  cursor_ok s -> Alsa2.takes_at_most_requested d ->
  Forall (write_in_bounds local_data_buffer_size) (fst (iteration d s))
  /\ match snd (iteration d s) with
     | Continue s' =>
         cursor_ok s'
         /\ pass_sent d s ++ pending s'
            = pending s
              ++ Alsa2.block sine_sample
                   (Z.to_nat (frames_generated (fst (iteration d s)))) rate
                   (Alsa2.phase s)
         /\ Alsa2.phase s'
            = Alsa2.phase_after
                (Z.to_nat (frames_generated (fst (iteration d s)))) rate
                (Alsa2.phase s)
     | Exit _ _ => pass_sent d s = []
     end.
Proof.
  intros Hs Hdev. destruct (refill_cursor s Hs) as (Hs1 & Hpend & Hph).
  destruct (dispatch_cursor d _ Hs1 Hdev) as [Hb Hd].
  rewrite pass_sent_eq, iteration_eq, fst_after, snd_after.
  rewrite frames_generated_app, wait_and_dispatch_generates, Z.add_0_r.
  split.
  - apply Forall_app. split; [apply write_in_bounds_refill|exact Hb].
  - destruct (snd (Alsa2.wait_and_dispatch d (snd (refill s)))) as [s'|];
      [|exact Hd].
    destruct Hd as (Hs' & Hsent & Hph'). split; [exact Hs'|].
    split; [rewrite Hsent; exact Hpend|rewrite Hph'; exact Hph].
Qed.

Lemma frames_generated_nonneg tr : 0 <= frames_generated tr.
Proof.
  induction tr as [|c tr IH]; cbn [frames_generated]; [lia|destruct c; lia].
Qed.

(** Any number of passes. *)
Lemma run_cursor ds : forall s,
  cursor_ok s -> Forall Alsa2.takes_at_most_requested ds ->
  Forall (write_in_bounds local_data_buffer_size) (fst (run ds s))
  /\ exists rest,
       run_sent ds s ++ rest
       = pending s
         ++ Alsa2.block sine_sample
              (Z.to_nat (frames_generated (fst (run ds s)))) rate
              (Alsa2.phase s)
       /\ forall s', snd (run ds s) = Continue s' ->
            cursor_ok s' /\ rest = pending s'.
Proof.
  induction ds as [|d ds IH]; intros s Hs Hds;
    cbn [Alsa2.run Stream.run_sent].
  - split; [constructor|]. exists (pending s). cbn [fst snd frames_generated].
    change (Z.to_nat 0) with 0%nat. cbn [Alsa2.block].
    rewrite app_nil_r. split; [reflexivity|].
    intros s' E. injection E as <-. split; [exact Hs|reflexivity].
  - apply Forall_cons_1 in Hds as [Hd Hds].
    destruct (iteration_cursor d s Hs Hd) as [Hb Hit].
    destruct (iteration d s) as [tr [s1|msg code]]; cbn [fst snd] in *.
    + destruct Hit as (Hs1 & Hsent & Hph).
      destruct (IH s1 Hs1 Hds) as (Hb' & rest & Hrest & Hfin).
      rewrite fst_after, snd_after. split.
      * apply Forall_app. split; assumption.
      * exists rest. split; [|exact Hfin].
        rewrite <- app_assoc, Hrest, app_assoc, Hsent, <- app_assoc.
        f_equal. rewrite Hph, <- block_add. f_equal.
        rewrite frames_generated_app.
        rewrite Z2Nat.inj_add by apply frames_generated_nonneg. reflexivity.
    + split; [exact Hb|]. rewrite Hit. cbn [app].
      eexists. split; [reflexivity|]. intros s' E. discriminate E.
Qed.

(** After a pass the pointer sits as far from the end of the buffer as
    frames are pending, also when none are left. *)
Lemma iteration_pointer d s s' :
  cursor_ok s -> snd (iteration d s) = Continue s' ->
  Alsa2.local_data_ptr s'
  = Some (Z.of_nat local_data_buffer_size
          - Alsa2.frames_to_write_from_local_buffer s').
Proof.
  intros (Hlen & Hf & Hptr). rewrite iteration_eq, snd_after.
  assert (H1 : Alsa2.local_data_ptr (snd (refill s))
               = Some (Z.of_nat local_data_buffer_size
                       - Alsa2.frames_to_write_from_local_buffer
                           (snd (refill s)))).
  { destruct (Z.eq_dec (Alsa2.frames_to_write_from_local_buffer s) 0) as [E|E].
    - rewrite (refill_empty sine_sample local_data_buffer_size rate s E).
      cbn. f_equal. lia.
    - rewrite (refill_nonempty sine_sample local_data_buffer_size rate s E).
      cbn [snd]. apply Hptr, E. }
  destruct (pass_shape d (snd (refill s)) [])
    as [(_ & _ & [Hout|(msg & code & Hout)])|(_ & _ & _ & _ & Hout)];
    rewrite Hout; intros E.
  - injection E as <-. exact H1.
  - discriminate E.
  - injection E as <-. unfold advanced. cbn. rewrite H1. cbn. f_equal. lia.
Qed.

Lemma run_pointer ds : forall s s',
  cursor_ok s -> Forall Alsa2.takes_at_most_requested ds -> ds <> [] ->
  snd (run ds s) = Continue s' ->
  Alsa2.local_data_ptr s'
  = Some (Z.of_nat local_data_buffer_size
          - Alsa2.frames_to_write_from_local_buffer s').
Proof.
  induction ds as [|d ds IH]; intros s s' Hs Hds Hne; [contradiction|].
  clear Hne. apply Forall_cons_1 in Hds as [Hd Hds].
  pose proof (iteration_cursor d s Hs Hd) as [_ Hit].
  pose proof (iteration_pointer d s) as Hp.
  cbn [Alsa2.run].
  destruct (iteration d s) as [tr [s1|msg code]]; cbn [fst snd] in *.
  - destruct Hit as (Hs1 & _). rewrite snd_after.
    destruct ds as [|d' ds'].
    + cbn [Alsa2.run snd]. intros E. injection E as <-.
      apply Hp; [exact Hs|reflexivity].
    + apply IH; [exact Hs1|exact Hds|discriminate].
  - intros E. discriminate E.
Qed.

Lemma cursor_ok_init stack :
  length stack = local_data_buffer_size -> cursor_ok (Alsa2.init stack).
Proof.
  intros H. split; [exact H|]. cbn. split; [lia|]. intros E. contradiction.
Qed.

(** alsa2.c, main: whatever the device answers, as long as a write never
    takes more frames than it is given, every snd_pcm_writei of the loop is
    given a pointer into the local buffer and a positive count that ends
    inside it, and after every pass the pointer sits as far from the end of
    the buffer as frames are pending, also when the buffer has just been
    drained. *)
Theorem writes_stay_inside_the_buffer ds stack :
  length stack = local_data_buffer_size ->
  Forall Alsa2.takes_at_most_requested ds ->
  Forall (write_in_bounds local_data_buffer_size)
    (fst (run ds (Alsa2.init stack)))
  /\ (forall s', snd (run ds (Alsa2.init stack)) = Continue s' -> cursor_ok s')
  /\ (ds <> [] ->
      forall s', snd (run ds (Alsa2.init stack)) = Continue s' ->
      Alsa2.local_data_ptr s'
      = Some (Z.of_nat local_data_buffer_size
              - Alsa2.frames_to_write_from_local_buffer s')).
Proof.
  intros Hlen Hds.
  destruct (run_cursor ds _ (cursor_ok_init stack Hlen) Hds)
    as (Hb & rest & _ & Hfin).
  split; [exact Hb|]. split.
  - intros s' E. exact (proj1 (Hfin s' E)).
  - intros Hne s' E.
    exact (run_pointer ds _ s' (cursor_ok_init stack Hlen) Hds Hne E).
Qed.

(** alsa2.c, main and generate_data: under the same condition, the frames
    the device has taken, in the order of the writes, followed by the frames
    still pending in the buffer, are the first samples of the one waveform
    the generator produces from phase 0, as many as were generated: no
    sample is dropped, repeated or reordered across short writes, refills
    and recoveries. If the process has exited, the frames taken are a
    prefix of that waveform. *)
Theorem device_receives_the_generated_wave ds stack :
  length stack = local_data_buffer_size ->
  Forall Alsa2.takes_at_most_requested ds ->
  (forall s', snd (run ds (Alsa2.init stack)) = Continue s' ->
     run_sent ds (Alsa2.init stack) ++ pending s'
     = Alsa2.block sine_sample
         (Z.to_nat (frames_generated (fst (run ds (Alsa2.init stack)))))
         rate F32.zero)
  /\ exists rest,
       run_sent ds (Alsa2.init stack) ++ rest
       = Alsa2.block sine_sample
           (Z.to_nat (frames_generated (fst (run ds (Alsa2.init stack)))))
           rate F32.zero.
Proof.
  intros Hlen Hds.
  destruct (run_cursor ds _ (cursor_ok_init stack Hlen) Hds)
    as (_ & rest & Hrest & Hfin).
  change (pending (Alsa2.init stack)) with (@nil F32.float) in Hrest.
  cbn [app] in Hrest. split.
  - intros s' E. destruct (Hfin s' E) as [_ <-]. exact Hrest.
  - exists rest. exact Hrest.
Qed.

(** alsa2.c, main: a pass ends the process only through a failed call.
    When select() succeeds or is interrupted, the translation of the events
    succeeds, snd_pcm_prepare succeeds, and the space query and the write
    return a count or one of the codes the loop recovers from, the pass ends
    in the next pass; a failing snd_pcm_resume alone never ends the
    process. *)
Theorem pass_continues_unless_a_call_fails d s :
  dev_select d <> -1 \/ dev_errno d = EINTR ->
  0 <= dev_revents_ret d -> 0 <= dev_prepare d ->
  0 <= dev_avail_update d \/ dev_avail_update d = - EPIPE ->
  (forall frames, 0 <= dev_writei d frames
                  \/ dev_writei d frames = - EPIPE
                  \/ dev_writei d frames = - ESTRPIPE) ->
  exists s', snd (iteration d s) = Continue s'.
Proof.
  intros Hsel Hrev Hprep Hav Hwr.
  rewrite iteration_eq, snd_after. generalize (snd (refill s)). intros s1.
  unfold Alsa2.wait_and_dispatch, Alsa2.on_writable, Alsa2.write_frames,
    Alsa2.resume_then_continue, Alsa2.prepare_then_continue.
  rewrite min_as_coded.
  specialize (Hwr (Z.min (dev_avail_update d)
                     (Alsa2.frames_to_write_from_local_buffer s1))).
  apply Z.ltb_ge in Hprep. apply Z.ltb_ge in Hrev. rewrite Hprep, Hrev.
  destruct (dev_state d); cbn; cases; try (eexists; reflexivity);
    exfalso; arith; lia.
Qed.

(** alsa2.c, main: when a pass ends the process, the last call it made is
    the one that failed, and the code reported is the negative value that
    call returned; for select() it is errno, which was not EINTR. *)
Theorem exit_follows_the_failed_call d s msg code :
  snd (iteration d s) = Exit msg code ->
  exists tr c,
    fst (iteration d s) = tr ++ [c]
    /\ ((c = Select (-1) /\ msg = "select"%string
         /\ code = dev_errno d /\ dev_errno d <> EINTR)
        \/ (returned c = Some code /\ code < 0)).
Proof.
  rewrite iteration_eq, snd_after, fst_after.
  generalize (snd (refill s)) (fst (refill s)). intros s1 tr0 E.
  assert (H : exists tr c,
             fst (Alsa2.wait_and_dispatch d s1) = tr ++ [c]
             /\ ((c = Select (-1) /\ msg = "select"%string
                  /\ code = dev_errno d /\ dev_errno d <> EINTR)
                 \/ (returned c = Some code /\ code < 0))).
  { exists (removelast (fst (Alsa2.wait_and_dispatch d s1))),
           (List.last (fst (Alsa2.wait_and_dispatch d s1)) (Generate 0)).
    revert E.
    unfold Alsa2.wait_and_dispatch, Alsa2.on_writable, Alsa2.write_frames,
      Alsa2.resume_then_continue, Alsa2.prepare_then_continue.
    destruct (Z.eqb_spec (dev_select d) (-1)) as [Hsel|Hsel].
    - rewrite Hsel. destruct (Z.eqb_spec (dev_errno d) EINTR); cbn;
        intros E; [discriminate E|]. injection E as <- <-.
      split; [reflexivity|]. left. repeat split; assumption.
    - destruct (dev_state d); cbn; cases; intros E; try discriminate E;
        injection E as <- <-; (split; [reflexivity|]); right;
        (split; [reflexivity|arith; lia]). }
  destruct H as (tr & c & Htr & Hc). exists (tr0 ++ tr), c.
  rewrite Htr, app_assoc. split; [reflexivity|exact Hc].
Qed.

End Loop.
End StreamFacts.

(** ** alsa.c: the loop of the draft *)
Module DraftFacts.
Import Env F32Facts Stream.

Section Draft.

Variable sine_sample : F32.float -> Z -> F32.float.
Variable data_size : nat.
Variable rate : Z.

Local Abbreviation refill := (Alsa.refill sine_sample data_size rate).
Local Abbreviation iteration := (Alsa.iteration sine_sample data_size rate).
Local Abbreviation draft_run := (Stream.draft_run sine_sample data_size rate).
Local Abbreviation draft_pass_sent := (Stream.draft_pass_sent sine_sample data_size rate).

(** A pass that finds POLLOUT set is the refill and one write of all the
    pending frames from the start of the buffer. *)
Lemma draft_writable_pass d s :
  woken_writable d = true ->
  iteration d s
  = (Select (dev_select d) :: PollRevents (dev_revents_ret d)
       :: fst (refill s)
       ++ [Writei (Some 0) (Alsa.data_len (snd (refill s)))
             (dev_writei d (Alsa.data_len (snd (refill s))))],
     if dev_writei d (Alsa.data_len (snd (refill s))) <? 0
     then Exit "snd_pcm_writei" (dev_writei d (Alsa.data_len (snd (refill s))))
     else Continue
            {| Alsa.phase := Alsa.phase (snd (refill s));
               Alsa.data := Alsa.data (snd (refill s));
               Alsa.data_len :=
                 (Alsa.data_len (snd (refill s))
                  - dev_writei d (Alsa.data_len (snd (refill s)))) mod 2 ^ 64;
               Alsa.data_ptr :=
                 ptr_add (Alsa.data_ptr (snd (refill s)))
                   (dev_writei d (Alsa.data_len (snd (refill s)))) |}).
Proof.
  intros H. unfold woken_writable, polled_out in H.
  apply andb_prop in H as [H H3]. apply andb_prop in H as [H1 H2].
  apply negb_true_iff in H1, H2, H3.
  unfold Alsa.iteration, Alsa.on_writable. rewrite H1, H2, H3.
  destruct (refill s) as [tr s1]. cbn [fst snd].
  destruct (dev_writei d (Alsa.data_len s1) <? 0); cbn;
    rewrite app_nil_r; reflexivity.
Qed.

Lemma draft_idle_pass d s :
  woken_writable d = false ->
  filter is_write (fst (iteration d s)) = []
  /\ frames_generated (fst (iteration d s)) = 0
  /\ (snd (iteration d s) = Continue s
      \/ exists msg code, snd (iteration d s) = Exit msg code).
Proof.
  unfold woken_writable, polled_out, Alsa.iteration.
  destruct (dev_select d =? -1); cbn; [eauto 6|].
  destruct (dev_revents_ret d <? 0); cbn; [eauto 6|].
  destruct (Z.land (dev_revents d) POLLOUT =? 0); cbn; [eauto 6|].
  discriminate.
Qed.

Lemma draft_refill_account s :
  (0 < data_size)%nat -> 0 <= Alsa.data_len s <= Z.of_nat data_size ->
  frames_written (fst (refill s)) = 0
  /\ filter is_write (fst (refill s)) = []
  /\ 0 < Alsa.data_len (snd (refill s)) <= Z.of_nat data_size
  /\ frames_generated (fst (refill s)) + Alsa.data_len s
     = Alsa.data_len (snd (refill s)).
Proof.
  intros Hsz Hs. unfold Alsa.refill.
  destruct (Z.eqb_spec (Alsa.data_len s) 0) as [E|E].
  - destruct (Alsa.generate_data _ _ _ _ _). cbn. repeat split; lia.
  - cbn. repeat split; lia.
Qed.

Lemma frames_written_snoc tr c :
  frames_written (tr ++ [c]) = frames_written tr + frames_written [c].
Proof.
  induction tr as [|c' tr IH]; cbn [app frames_written] in *; [lia|].
  destruct c'; lia.
Qed.

Lemma frames_generated_snoc_write tr p n r :
  frames_generated (tr ++ [Writei p n r]) = frames_generated tr.
Proof.
  induction tr as [|c' tr IH]; cbn [app frames_generated] in *; [lia|].
  destruct c'; lia.
Qed.

Lemma draft_iteration_account d s :
  (0 < data_size)%nat -> Z.of_nat data_size < 2 ^ 64 ->
  Alsa2.takes_at_most_requested d ->
  0 <= Alsa.data_len s <= Z.of_nat data_size ->
  match snd (iteration d s) with
  | Continue s' =>
      0 <= Alsa.data_len s' <= Z.of_nat data_size
      /\ frames_written (fst (iteration d s)) + Alsa.data_len s'
         = frames_generated (fst (iteration d s)) + Alsa.data_len s
  | Exit _ _ =>
      frames_written (fst (iteration d s))
      <= frames_generated (fst (iteration d s)) + Alsa.data_len s
  end.
Proof.
  intros Hsz Hmax Hdev Hs.
  destruct (woken_writable d) eqn:Hw.
  - rewrite (draft_writable_pass d s Hw). cbn [fst snd].
    destruct (draft_refill_account s Hsz Hs) as (Hw0 & _ & Hlen & Hgen).
    pose proof (Hdev _ (proj1 Hlen)) as Hle.
    cbn [frames_written frames_generated].
    rewrite frames_written_snoc, frames_generated_snoc_write, Hw0.
    cbn [frames_written].
    destruct (Z.ltb_spec (dev_writei d (Alsa.data_len (snd (refill s)))) 0).
    + lia.
    + cbn [Alsa.data_len]. rewrite Z.mod_small by lia. lia.
  - destruct (draft_idle_pass d s Hw) as (Hwr & Hgen & Hout).
    assert (Hw0 : frames_written (fst (iteration d s)) = 0).
    { clear Hout. revert Hwr. generalize (fst (iteration d s)). intros tr.
      induction tr as [|c tr IH]; [reflexivity|].
      destruct c; cbn [frames_written]; try exact IH.
      rewrite filter_cons_True by exact I. discriminate. }
    rewrite Hw0, Hgen.
    destruct Hout as [->|(msg & code & ->)]; lia.
Qed.

(** alsa.c, main: with a buffer of at least one frame and a device that
    never takes more frames than it is given, the unsigned count of pending
    frames never wraps: after every pass it lies between 0 and the size of
    the buffer, and frames written plus frames pending are the frames
    generated. *)
Theorem draft_books_balance ds stack :
  (0 < data_size)%nat -> Z.of_nat data_size < 2 ^ 64 ->
  Forall Alsa2.takes_at_most_requested ds ->
  frames_written (fst (draft_run ds (Alsa.init stack)))
  <= frames_generated (fst (draft_run ds (Alsa.init stack)))
  /\ forall s, snd (draft_run ds (Alsa.init stack)) = Continue s ->
       0 <= Alsa.data_len s <= Z.of_nat data_size
       /\ frames_written (fst (draft_run ds (Alsa.init stack)))
          + Alsa.data_len s
          = frames_generated (fst (draft_run ds (Alsa.init stack))).
Proof.
  intros Hsz Hmax Hds.
  assert (G : forall s, 0 <= Alsa.data_len s <= Z.of_nat data_size ->
    match snd (draft_run ds s) with
    | Continue s' =>
        0 <= Alsa.data_len s' <= Z.of_nat data_size
        /\ frames_written (fst (draft_run ds s)) + Alsa.data_len s'
           = frames_generated (fst (draft_run ds s)) + Alsa.data_len s
    | Exit _ _ =>
        frames_written (fst (draft_run ds s))
        <= frames_generated (fst (draft_run ds s)) + Alsa.data_len s
    end).
  { induction ds as [|d ds IH]; intros s Hs; cbn [Stream.draft_run].
    - cbn. lia.
    - apply Forall_cons_1 in Hds as [Hd Hds].
      pose proof (draft_iteration_account d s Hsz Hmax Hd Hs) as Hit.
      destruct (iteration d s) as [tr [s1|msg code]]; cbn [fst snd] in Hit.
      + destruct Hit as [Hs1 Hacc]. specialize (IH Hds s1 Hs1).
        rewrite Alsa2Facts.fst_after, Alsa2Facts.snd_after.
        rewrite Alsa2Facts.frames_written_app, Alsa2Facts.frames_generated_app.
        destruct (snd (draft_run ds s1)); lia.
      + cbn [fst snd]. exact Hit. }
  specialize (G (Alsa.init stack)). cbn [Alsa.init Alsa.data_len] in G.
  specialize (G ltac:(lia)).
  destruct (snd (draft_run ds (Alsa.init stack))) as [s1|msg code].
  - split; [lia|]. intros s E. injection E as <-. lia.
  - split; [lia|]. intros s E. discriminate E.
Qed.

(** alsa.c, main: the pass ends the process exactly when select() fails
    (an interrupted select() included), when the translation of the events
    fails, or when POLLOUT is set and the write returns a negative value (an
    underrun included). *)
Theorem draft_exits_exactly_on_failure d s :
  (exists msg code, snd (iteration d s) = Exit msg code)
  <-> dev_select d = -1
      \/ dev_revents_ret d < 0
      \/ (polled_out d = true
          /\ dev_writei d (Alsa.data_len (snd (refill s))) < 0).
Proof.
  unfold Alsa.iteration, Alsa.on_writable, polled_out.
  destruct (Z.eqb_spec (dev_select d) (-1)) as [Hs|Hs]; cbn.
  { split; [intros _; left; exact Hs|eauto]. }
  destruct (Z.ltb_spec (dev_revents_ret d) 0) as [Hr|Hr]; cbn.
  { split; [intros _; right; left; exact Hr|eauto]. }
  destruct (Z.land (dev_revents d) POLLOUT =? 0); cbn.
  { split; [intros (msg & code & E); discriminate E|].
    intros [H|[H|[H _]]]; [contradiction|lia|discriminate H]. }
  destruct (refill s) as [tr s1]. cbn [fst snd].
  destruct (Z.ltb_spec (dev_writei d (Alsa.data_len s1)) 0) as [Hw|Hw]; cbn.
  - split; [intros _; right; right; split; [reflexivity|exact Hw]|eauto].
  - split; [intros (msg & code & E); discriminate E|].
    intros [H|[H|[_ H]]]; [contradiction|lia|lia].
Qed.

(** alsa.c, main: a write is always given the start of the buffer. After a
    write that took only [r1] of the pending frames, the next write hands
    the device the first frames of the block again, not the frames that
    follow the [r1] already taken. *)
Theorem draft_resends_the_head_of_the_block d1 d2 s :
  woken_writable d1 = true -> woken_writable d2 = true ->
  0 < dev_writei d1 (Alsa.data_len (snd (refill s)))
    < Alsa.data_len (snd (refill s)) ->
  Alsa.data_len (snd (refill s)) < 2 ^ 64 ->
  0 <= dev_writei d2 (Alsa.data_len (snd (refill s))
                      - dev_writei d1 (Alsa.data_len (snd (refill s)))) ->
  exists s',
    snd (iteration d1 s) = Continue s'
    /\ draft_pass_sent d1 s
       = take (Z.to_nat (dev_writei d1 (Alsa.data_len (snd (refill s)))))
           (Alsa.data (snd (refill s)))
    /\ draft_pass_sent d2 s'
       = take (Z.to_nat
                 (dev_writei d2
                    (Alsa.data_len (snd (refill s))
                     - dev_writei d1 (Alsa.data_len (snd (refill s))))))
           (Alsa.data (snd (refill s))).
Proof.
  intros Hw1 Hw2 [Hr1 Hshort] Hmax Hr2.
  set (s1 := snd (refill s)) in *.
  set (r1 := dev_writei d1 (Alsa.data_len s1)) in *.
  assert (Hsent : forall d t, woken_writable d = true ->
            0 <= dev_writei d (Alsa.data_len (snd (refill t))) ->
            draft_pass_sent d t
            = take (Z.to_nat (dev_writei d (Alsa.data_len (snd (refill t)))))
                (Alsa.data (snd (refill t)))).
  { intros d t Hw Hr. unfold Stream.draft_pass_sent.
    rewrite (draft_writable_pass d t Hw). cbn [fst flat_map taken app].
    rewrite flat_map_app. cbn [flat_map taken].
    apply Z.ltb_ge in Hr. rewrite Hr. unfold window.
    change (Z.to_nat 0) with 0%nat. rewrite drop_0, app_nil_r.
    replace (flat_map _ (fst (refill t))) with (@nil F32.float);
      [reflexivity|].
    unfold Alsa.refill. destruct (Alsa.data_len t =? 0);
      [destruct (Alsa.generate_data _ _ _ _ _)|]; reflexivity. }
  rewrite (draft_writable_pass d1 s Hw1). cbn [snd]. fold s1. fold r1.
  replace (r1 <? 0) with false by (symmetry; apply Z.ltb_ge; lia).
  eexists. split; [reflexivity|]. split.
  - apply Hsent; [exact Hw1|]. fold s1. fold r1. lia.
  - set (s' := {| Alsa.phase := _ |}).
    assert (Hlen : Alsa.data_len s' = Alsa.data_len s1 - r1).
    { cbn. apply Z.mod_small. lia. }
    assert (Hre : refill s' = ([], s')).
    { unfold Alsa.refill. rewrite Hlen.
      replace (Alsa.data_len s1 - r1 =? 0) with false
        by (symmetry; apply Z.eqb_neq; lia). reflexivity. }
    rewrite (Hsent d2 s' Hw2); rewrite Hre; cbn [snd]; rewrite Hlen;
      [reflexivity|exact Hr2].
Qed.

End Draft.

End DraftFacts.

(** ** The descriptor sets of select() *)
Module PollFacts.
Import Env Poll.

Lemma land_flag e k :
  0 <= k -> Z.land e (2 ^ k) = if Z.testbit e k then 2 ^ k else 0.
Proof.
  intros Hk. apply Z.bits_inj'. intros n Hn.
  rewrite Z.land_spec, Z.pow2_bits_eqb by exact Hk.
  destruct (Z.eqb_spec k n) as [->|Hne].
  - destruct (Z.testbit e n).
    + rewrite Z.pow2_bits_eqb, Z.eqb_refl by exact Hn. reflexivity.
    + rewrite Z.bits_0. reflexivity.
  - rewrite andb_false_r. destruct (Z.testbit e k).
    + rewrite Z.pow2_bits_eqb by exact Hk.
      symmetry. apply Z.eqb_neq. exact Hne.
    + rewrite Z.bits_0. reflexivity.
Qed.

Lemma flag_requested e k :
  0 <= k -> Z.land e (2 ^ k) <> 0 -> Z.land (2 ^ k) e = 2 ^ k.
Proof.
  intros Hk H. rewrite Z.land_comm. rewrite land_flag in * by exact Hk.
  destruct (Z.testbit e k); [reflexivity|contradiction].
Qed.

Lemma fold_mark fds : forall acc x,
  (elem_of x (rfd (fst (fold_left mark fds acc)))
   <-> elem_of x (rfd (fst acc))
       \/ exists p, In p fds /\ fd p = x /\ Z.land (events p) POLLIN <> 0)
  /\ (elem_of x (wfd (fst (fold_left mark fds acc)))
      <-> elem_of x (wfd (fst acc))
          \/ exists p, In p fds /\ fd p = x /\ Z.land (events p) POLLOUT <> 0)
  /\ (elem_of x (xfd (fst (fold_left mark fds acc)))
      <-> elem_of x (xfd (fst acc))
          \/ exists p, In p fds /\ fd p = x /\ Z.land (events p) POLLERR <> 0).
Proof.
  induction fds as [|q fds IH]; intros [sets m] x; cbn [fold_left].
  - cbn [fst In]. repeat split; intros; try tauto;
      destruct H as [H|(p & [] & _)]; exact H.
  - destruct (IH (mark (sets, m) q) x) as (Hr & Hw & Hx).
    rewrite Hr, Hw, Hx. clear Hr Hw Hx IH.
    unfold mark, FD_SET. cbn [fst rfd wfd xfd In].
    repeat split.
    all: destruct (Z.eqb_spec (Z.land (events q) POLLIN) 0);
      destruct (Z.eqb_spec (Z.land (events q) POLLOUT) 0);
      destruct (Z.eqb_spec (Z.land (events q) POLLERR) 0).
    all: rewrite ?elem_of_union, ?elem_of_singleton.
    all: intros H; repeat
      match goal with
      | H : _ \/ _ |- _ => destruct H as [H|H]
      | H : exists _, _ |- _ => destruct H as (p & H)
      | H : _ /\ _ |- _ => destruct H
      end; subst; eauto 8; try congruence.
Qed.

Lemma fold_max fds : forall acc,
  snd acc <= snd (fold_left mark fds acc)
  /\ (forall p, In p fds -> events p <> 0 ->
        fd p <= snd (fold_left mark fds acc))
  /\ (snd (fold_left mark fds acc) = snd acc
      \/ exists p, In p fds /\ events p <> 0
                   /\ fd p = snd (fold_left mark fds acc)).
Proof.
  induction fds as [|q fds IH]; intros [sets m]; cbn [fold_left snd].
  - split; [lia|]. split; [intros p []|left; reflexivity].
  - destruct (IH (mark (sets, m) q)) as (Hle & Hall & Hone).
    assert (Hm : m <= snd (mark (sets, m) q)
                 /\ (events q <> 0 -> fd q <= snd (mark (sets, m) q))
                 /\ (snd (mark (sets, m) q) = m
                     \/ (events q <> 0 /\ fd q = snd (mark (sets, m) q)))).
    { unfold mark. cbn [snd].
      destruct (Z.eqb_spec (events q) 0) as [E|E]; cbn [negb andb].
      - split; [lia|]. split; [intros H; contradiction|left; reflexivity].
      - destruct (Z.gtb_spec (fd q) m); repeat split; try lia; auto. }
    destruct Hm as (Hm1 & Hm2 & Hm3).
    split; [lia|]. split.
    + intros p [->|Hp] He; [specialize (Hm2 He); lia|apply Hall; assumption].
    + destruct Hone as [Hone|(p & Hp & He & Hfd)].
      * destruct Hm3 as [Hm3|[He Hfd]].
        -- left. lia.
        -- right. exists q. cbn [In]. split; [auto|]. split; [exact He|lia].
      * right. exists p. cbn [In]. auto.
Qed.

Lemma nonzero_events e flag : Z.land e flag <> 0 -> e <> 0.
Proof. intros H ->. apply H. apply Z.land_0_l. Qed.

(** Both files, main: [max_fd + 1], the first argument of select(), is
    above every descriptor put into one of the three sets; [max_fd] is -1
    when no descriptor asks for an event and the descriptor of such an entry
    otherwise: it is at least the descriptor of every entry that asks for
    an event, whichever, and then not -1. *)
Theorem nfds_covers_every_descriptor fds :
  in_range fds ->
  (forall x,
     elem_of x (rfd (fst (build_fd_sets fds)))
     \/ elem_of x (wfd (fst (build_fd_sets fds)))
     \/ elem_of x (xfd (fst (build_fd_sets fds))) ->
     x < snd (build_fd_sets fds) + 1)
  /\ (snd (build_fd_sets fds) = -1
      \/ exists p, In p fds /\ events p <> 0
                   /\ fd p = snd (build_fd_sets fds))
  /\ (forall p, In p fds -> events p <> 0 ->
        fd p <= snd (build_fd_sets fds) /\ snd (build_fd_sets fds) <> -1).
Proof.
  intros Hrange. unfold build_fd_sets.
  destruct (fold_max fds (zeroed, -1)) as (_ & Hall & Hone).
  split; [|split; [exact Hone|]].
  2: { intros p Hp He. pose proof (Hall p Hp He) as Hle.
       pose proof (proj1 (List.Forall_forall _ _) Hrange p Hp) as Hfd.
       cbn beta in Hfd. split; [exact Hle|lia]. }
  intros x Hx. destruct (fold_mark fds (zeroed, -1) x) as (Hr & Hw & Hxx).
  cbn [fst zeroed rfd wfd xfd] in *.
  assert (H : exists p flag, In p fds /\ fd p = x /\ Z.land (events p) flag <> 0).
  { destruct Hx as [Hx|[Hx|Hx]];
      [apply Hr in Hx|apply Hw in Hx|apply Hxx in Hx];
      (destruct Hx as [Hx|(p & Hp & Hfd & He)];
       [apply elem_of_empty in Hx; contradiction|eauto 6]). }
  destruct H as (p & flag & Hp & <- & He).
  pose proof (Hall p Hp (nonzero_events _ _ He)). lia.
Qed.

Lemma built_sets_spec fds x :
  (elem_of x (rfd (fst (build_fd_sets fds)))
   <-> exists p, In p fds /\ fd p = x /\ Z.land (events p) POLLIN <> 0)
  /\ (elem_of x (wfd (fst (build_fd_sets fds)))
      <-> exists p, In p fds /\ fd p = x /\ Z.land (events p) POLLOUT <> 0)
  /\ (elem_of x (xfd (fst (build_fd_sets fds)))
      <-> exists p, In p fds /\ fd p = x /\ Z.land (events p) POLLERR <> 0).
Proof.
  unfold build_fd_sets.
  destruct (fold_mark fds (zeroed, -1) x) as (Hr & Hw & Hx).
  cbn [fst zeroed rfd wfd xfd] in *.
  rewrite Hr, Hw, Hx. repeat split; intros H; auto;
    (destruct H as [H|H]; [apply elem_of_empty in H; contradiction|exact H]).
Qed.

(** Both files, main: a descriptor is in the read set exactly when one of
    the entries carrying it asks for POLLIN, and likewise for the write set
    with POLLOUT and the exception set with POLLERR. *)
Theorem sets_hold_what_the_entries_ask_for fds x :
  in_range fds ->
  (elem_of x (rfd (fst (build_fd_sets fds)))
   <-> exists p, In p fds /\ fd p = x /\ Z.land (events p) POLLIN <> 0)
  /\ (elem_of x (wfd (fst (build_fd_sets fds)))
      <-> exists p, In p fds /\ fd p = x /\ Z.land (events p) POLLOUT <> 0)
  /\ (elem_of x (xfd (fst (build_fd_sets fds)))
      <-> exists p, In p fds /\ fd p = x /\ Z.land (events p) POLLERR <> 0).
Proof. intros _. apply built_sets_spec. Qed.

Lemma same_descriptor_same_entry fds p q :
  NoDup (map fd fds) -> In p fds -> In q fds -> fd p = fd q -> p = q.
Proof.
  induction fds as [|r fds IH]; cbn [map In]; intros Hnd Hp Hq E; [contradiction|].
  apply NoDup_cons in Hnd as [Hr Hnd].
  destruct Hp as [->|Hp]; destruct Hq as [->|Hq].
  - reflexivity.
  - exfalso. apply Hr. rewrite E. apply list_elem_of_In, in_map. exact Hq.
  - exfalso. apply Hr. rewrite <- E. apply list_elem_of_In, in_map. exact Hp.
  - apply IH; assumption.
Qed.

Lemma lor3_land a b c e :
  Z.land a e = a -> Z.land b e = b -> Z.land c e = c ->
  Z.land (Z.lor (Z.lor a b) c) e = Z.lor (Z.lor a b) c.
Proof.
  intros Ha Hb Hc. rewrite !Z.land_lor_distr_l, Ha, Hb, Hc. reflexivity.
Qed.

(** Both files, main: when the entries carry pairwise distinct descriptors
    and select() has only removed descriptors from the sets, every event
    the second loop stores in [revents] is one the entry asked for in
    [events]; the descriptor and [events] are left as they were. *)
Theorem revents_within_events fds left p :
  in_range fds -> NoDup (map fd fds) ->
  left_by_select (fst (build_fd_sets fds)) left -> In p fds ->
  Z.land (revents (answer left p)) (events p) = revents (answer left p)
  /\ fd (answer left p) = fd p /\ events (answer left p) = events p.
Proof.
  intros Hrange Hnd (Hr & Hw & Hx) Hp.
  split; [|split; reflexivity].
  destruct (built_sets_spec fds (fd p))
    as (Sr & Sw & Sx).
  cbn [answer revents]. unfold FD_ISSET. apply lor3_land.
  - destruct (bool_decide_reflect (elem_of (fd p) (rfd left))) as [H|H];
      [|apply Z.land_0_l].
    apply Hr, Sr in H. destruct H as (q & Hq & Hfd & He).
    rewrite (same_descriptor_same_entry fds q p Hnd Hq Hp Hfd) in He.
    apply (flag_requested (events p) 0); [lia|exact He].
  - destruct (bool_decide_reflect (elem_of (fd p) (wfd left))) as [H|H];
      [|apply Z.land_0_l].
    apply Hw, Sw in H. destruct H as (q & Hq & Hfd & He).
    rewrite (same_descriptor_same_entry fds q p Hnd Hq Hp Hfd) in He.
    apply (flag_requested (events p) 2); [lia|exact He].
  - destruct (bool_decide_reflect (elem_of (fd p) (xfd left))) as [H|H];
      [|apply Z.land_0_l].
    apply Hx, Sx in H. destruct H as (q & Hq & Hfd & He).
    rewrite (same_descriptor_same_entry fds q p Hnd Hq Hp Hfd) in He.
    apply (flag_requested (events p) 3); [lia|exact He].
Qed.

Lemma isset_built fds p k (set : fd_sets -> gset Z) :
  0 <= k -> NoDup (map fd fds) -> In p fds ->
  (elem_of (fd p) (set (fst (build_fd_sets fds)))
   <-> exists q, In q fds /\ fd q = fd p /\ Z.land (events q) (2 ^ k) <> 0) ->
  (if FD_ISSET (fd p) (set (fst (build_fd_sets fds))) then 2 ^ k else 0)
  = Z.land (events p) (2 ^ k).
Proof.
  intros Hk Hnd Hp Hset. unfold FD_ISSET. rewrite land_flag by exact Hk.
  destruct (bool_decide_reflect
              (elem_of (fd p) (set (fst (build_fd_sets fds))))) as [H|H].
  - apply Hset in H. destruct H as (q & Hq & Hfd & He).
    rewrite (same_descriptor_same_entry fds q p Hnd Hq Hp Hfd) in He.
    rewrite land_flag in He by exact Hk.
    destruct (Z.testbit (events p) k); [reflexivity|contradiction].
  - destruct (Z.testbit (events p) k) eqn:E; [|reflexivity].
    exfalso. apply H, Hset. exists p. split; [exact Hp|].
    split; [reflexivity|]. rewrite land_flag, E by exact Hk.
    apply Z.pow_nonzero; lia.
Qed.

(** Both files, main: when the entries carry pairwise distinct descriptors
    and select() reports every descriptor it was given as ready, the second
    loop stores in [revents] the events asked for, restricted to POLLIN,
    POLLOUT and POLLERR. *)
Theorem all_ready_returns_the_events fds p :
  in_range fds -> NoDup (map fd fds) -> In p fds ->
  revents (answer (fst (build_fd_sets fds)) p)
  = Z.land (events p) (Z.lor (Z.lor POLLIN POLLOUT) POLLERR).
Proof.
  intros Hrange Hnd Hp.
  destruct (built_sets_spec fds (fd p))
    as (Sr & Sw & Sx).
  cbn [answer revents]. rewrite !Z.land_lor_distr_r.
  change POLLIN with (2 ^ 0) in *. change POLLOUT with (2 ^ 2) in *.
  change POLLERR with (2 ^ 3) in *.
  rewrite (isset_built fds p 0 rfd) by (assumption || lia).
  rewrite (isset_built fds p 2 wfd) by (assumption || lia).
  rewrite (isset_built fds p 3 xfd) by (assumption || lia).
  reflexivity.
Qed.

End PollFacts.

(** ** The further statements at concrete inputs *)
Module ExtraWitnesses.
Import Env.

Lemma fills_the_first_2_of_4 :
  (2 <= length (Scenario.silence 4))%nat
  /\ length (fst (Alsa2.generate_data Scenario.ramp (Scenario.silence 4) 2 4
                    F32.zero)) = length (Scenario.silence 4).
Proof.
  assert (H : (2 <= length (Scenario.silence 4))%nat) by (cbn; lia).
  split; [exact H|].
  exact (proj1 (GeneratorFacts.generate_data_fills_the_first_n Scenario.ramp
                  (Scenario.silence 4) 2 4 F32.zero H)).
Defined.

Lemma period_4_in_a_block_of_6 :
  0 < 4 <= F32.two24 /\ 0 <= 1 < 4
  /\ (6 <= length (Scenario.silence 6))%nat
  /\ fst (Alsa2.generate_data Scenario.ramp (Scenario.silence 6) 6 4
            (F32.of_Z 1)) !! (1 + Z.to_nat 4)%nat
     = fst (Alsa2.generate_data Scenario.ramp (Scenario.silence 6) 6 4
              (F32.of_Z 1)) !! 1%nat.
Proof.
  assert (Hr : 0 < 4 <= F32.two24) by (split; [reflexivity|discriminate]).
  assert (Hp : 0 <= 1 < 4) by (split; [discriminate|reflexivity]).
  assert (Hn : (6 <= length (Scenario.silence 6))%nat) by (cbn; lia).
  split; [exact Hr|]. split; [exact Hp|]. split; [exact Hn|].
  apply (proj2 (GeneratorFacts.generated_wave_has_period_rate Scenario.ramp
                  (Scenario.silence 6) 6 4 1 Hr Hp Hn)).
  cbn. lia.
Defined.

Lemma generators_agree_on_3_of_4 :
  0 < 4 <= F32.two24 /\ 0 <= 1 /\ 1 + Z.of_nat 3 <= 4
  /\ fst (Alsa.generate_data Scenario.ramp (Scenario.silence 4) 3 4
            (F32.of_Z 1))
     = fst (Alsa2.generate_data Scenario.ramp (Scenario.silence 4) 3 4
              (F32.of_Z 1)).
Proof.
  assert (Hr : 0 < 4 <= F32.two24) by (split; [reflexivity|discriminate]).
  assert (Hp : 0 <= 1) by discriminate.
  assert (Hn : 1 + Z.of_nat 3 <= 4) by (cbn; lia).
  split; [exact Hr|]. split; [exact Hp|]. split; [exact Hn|].
  exact (GeneratorFacts.generators_agree_before_the_wrap Scenario.ramp
           (Scenario.silence 4) 3 4 1 Hr Hp Hn).
Defined.

Lemma draft_phase_near_two24 :
  0 <= 16777215 <= F32.two24
  /\ snd (Alsa.generate_data Scenario.ramp (Scenario.silence 4) 3 44100
            (F32.of_Z 16777215))
     = F32.of_Z (Z.min (16777215 + Z.of_nat 3) F32.two24).
Proof.
  assert (Hp : 0 <= 16777215 <= F32.two24) by (split; discriminate).
  split; [exact Hp|].
  exact (GeneratorFacts.draft_phase_stops_at_two24 Scenario.ramp
           (Scenario.silence 4) 3 44100 16777215 Hp).
Defined.

Lemma draft_frozen_block_of_3 :
  (3 <= length (Scenario.silence 4))%nat
  /\ fst (Alsa.generate_data Scenario.ramp (Scenario.silence 4) 3 44100
            (F32.of_Z F32.two24))
     = replicate 3 (Scenario.ramp (F32.of_Z F32.two24) 44100)
       ++ drop 3 (Scenario.silence 4).
Proof.
  assert (H : (3 <= length (Scenario.silence 4))%nat) by (cbn; lia).
  split; [exact H|].
  exact (GeneratorFacts.draft_wave_freezes Scenario.ramp
           (Scenario.silence 4) 3 44100 H).
Defined.

Lemma mixed_run_is_well_behaved :
  Forall Alsa2.takes_at_most_requested Examples.mixed_run.
Proof.
  repeat (apply List.Forall_cons; [intros n Hn; cbn; lia|]).
  apply List.Forall_nil.
Defined.

Lemma mixed_run_stays_inside_the_buffer :
  length (Scenario.silence 4) = 4%nat
  /\ Forall Alsa2.takes_at_most_requested Examples.mixed_run
  /\ Forall (Stream.write_in_bounds 4)
       (fst (Alsa2.run Scenario.ramp 4 4 Examples.mixed_run
               (Alsa2.init (Scenario.silence 4)))).
Proof.
  split; [reflexivity|]. split; [exact mixed_run_is_well_behaved|].
  exact (proj1 (StreamFacts.writes_stay_inside_the_buffer Scenario.ramp 4 4
                  Examples.mixed_run (Scenario.silence 4) eq_refl
                  mixed_run_is_well_behaved)).
Defined.

Lemma mixed_run_delivers_a_prefix :
  length (Scenario.silence 4) = 4%nat
  /\ Forall Alsa2.takes_at_most_requested Examples.mixed_run
  /\ exists rest,
       Stream.run_sent Scenario.ramp 4 4 Examples.mixed_run
         (Alsa2.init (Scenario.silence 4)) ++ rest
       = Alsa2.block Scenario.ramp
           (Z.to_nat
              (frames_generated
                 (fst (Alsa2.run Scenario.ramp 4 4 Examples.mixed_run
                         (Alsa2.init (Scenario.silence 4))))))
           4 F32.zero.
Proof.
  split; [reflexivity|]. split; [exact mixed_run_is_well_behaved|].
  exact (proj2 (StreamFacts.device_receives_the_generated_wave
                  Scenario.ramp 4 4 Examples.mixed_run (Scenario.silence 4)
                  eq_refl mixed_run_is_well_behaved)).
Defined.

Lemma recovering_pass_continues :
  let d := Scenario.faulty 2 (- ESTRPIPE) in
  (dev_select d <> -1 \/ dev_errno d = EINTR)
  /\ 0 <= dev_revents_ret d /\ 0 <= dev_prepare d
  /\ exists s', snd (Alsa2.iteration Scenario.ramp 4 4 d
                       (Alsa2.init (Scenario.silence 4))) = Continue s'.
Proof.
  intros d.
  assert (H1 : dev_select d <> -1 \/ dev_errno d = EINTR)
    by (left; discriminate).
  assert (H2 : 0 <= dev_revents_ret d) by discriminate.
  assert (H3 : 0 <= dev_prepare d) by discriminate.
  split; [exact H1|]. split; [exact H2|]. split; [exact H3|].
  apply (StreamFacts.pass_continues_unless_a_call_fails Scenario.ramp 4 4 d
           (Alsa2.init (Scenario.silence 4)) H1 H2 H3).
  - left. discriminate.
  - intros frames. right. right. reflexivity.
Defined.

Lemma fatal_space_query_is_the_last_call :
  let d := Scenario.faulty (-19) 0 in
  let s := Alsa2.init (Scenario.silence 4) in
  snd (Alsa2.iteration Scenario.ramp 4 4 d s) = Exit "snd_pcm_avail_update" (-19)
  /\ exists tr c,
       fst (Alsa2.iteration Scenario.ramp 4 4 d s) = tr ++ [c].
Proof.
  intros d s.
  assert (E : snd (Alsa2.iteration Scenario.ramp 4 4 d s)
              = Exit "snd_pcm_avail_update" (-19)) by (vm_compute; reflexivity).
  split; [exact E|].
  destruct (StreamFacts.exit_follows_the_failed_call Scenario.ramp 4 4 d s
              _ _ E) as (tr & c & Htr & _).
  exists tr, c. exact Htr.
Defined.

Lemma draft_mixed_run_balances :
  (0 < 4)%nat /\ Z.of_nat 4 < 2 ^ 64
  /\ Forall Alsa2.takes_at_most_requested Examples.mixed_run
  /\ frames_written
       (fst (Stream.draft_run Scenario.ramp 4 4 Examples.mixed_run
               (Alsa.init (Scenario.silence 4))))
     <= frames_generated
          (fst (Stream.draft_run Scenario.ramp 4 4 Examples.mixed_run
                  (Alsa.init (Scenario.silence 4)))).
Proof.
  assert (H1 : (0 < 4)%nat) by lia.
  assert (H2 : Z.of_nat 4 < 2 ^ 64) by reflexivity.
  split; [exact H1|]. split; [exact H2|].
  split; [exact mixed_run_is_well_behaved|].
  exact (proj1 (DraftFacts.draft_books_balance Scenario.ramp 4 4
                  Examples.mixed_run (Scenario.silence 4) H1 H2
                  mixed_run_is_well_behaved)).
Defined.

Lemma draft_exits_on_an_interrupted_wait :
  dev_select Scenario.interrupted = -1
  /\ exists msg code,
       snd (Alsa.iteration Scenario.ramp 4 4 Scenario.interrupted
              (Alsa.init (Scenario.silence 4))) = Exit msg code.
Proof.
  split; [reflexivity|].
  apply (proj2 (DraftFacts.draft_exits_exactly_on_failure Scenario.ramp 4 4
                  Scenario.interrupted (Alsa.init (Scenario.silence 4)))).
  left. reflexivity.
Defined.

Lemma draft_resends_after_one_frame :
  let d1 := Scenario.short_write 3 1 in
  let d2 := Scenario.short_write 3 2 in
  let s := Alsa.init (Scenario.silence 4) in
  woken_writable d1 = true /\ woken_writable d2 = true
  /\ exists s',
       snd (Alsa.iteration Scenario.ramp 4 4 d1 s) = Continue s'
       /\ Stream.draft_pass_sent Scenario.ramp 4 4 d2 s'
          = take 2 (Alsa.data (snd (Alsa.refill Scenario.ramp 4 4 s))).
Proof.
  intros d1 d2 s. split; [reflexivity|]. split; [reflexivity|].
  assert (H1 : 0 < dev_writei d1
                     (Alsa.data_len (snd (Alsa.refill Scenario.ramp 4 4 s)))
               < Alsa.data_len (snd (Alsa.refill Scenario.ramp 4 4 s))).
  { vm_compute. split; reflexivity. }
  assert (H2 : Alsa.data_len (snd (Alsa.refill Scenario.ramp 4 4 s)) < 2 ^ 64).
  { vm_compute. reflexivity. }
  assert (H3 : 0 <= dev_writei d2
                      (Alsa.data_len (snd (Alsa.refill Scenario.ramp 4 4 s))
                       - dev_writei d1
                           (Alsa.data_len
                              (snd (Alsa.refill Scenario.ramp 4 4 s))))).
  { vm_compute. discriminate. }
  destruct (DraftFacts.draft_resends_the_head_of_the_block Scenario.ramp 4 4
              d1 d2 s eq_refl eq_refl H1 H2 H3) as (s' & E & _ & Hsent).
  exists s'. split; [exact E|]. exact Hsent.
Defined.

Lemma two_fds_in_range : Poll.in_range Examples.two_fds.
Proof.
  repeat (apply List.Forall_cons; [cbn; unfold Poll.FD_SETSIZE; lia|]).
  apply List.Forall_nil.
Defined.

Lemma two_fds_distinct : NoDup (map Poll.fd Examples.two_fds).
Proof.
  apply NoDup_cons_2.
  - intros H. apply list_elem_of_In in H. destruct H as [H|[]]. discriminate H.
  - apply NoDup_cons_2; [|apply NoDup_nil_2].
    intros H. apply list_elem_of_In in H. destruct H.
Defined.

Lemma two_fds_nfds :
  Poll.in_range Examples.two_fds
  /\ snd (Poll.build_fd_sets Examples.two_fds) = 5
  /\ (forall x,
        elem_of x (Poll.rfd (fst (Poll.build_fd_sets Examples.two_fds)))
        \/ elem_of x (Poll.wfd (fst (Poll.build_fd_sets Examples.two_fds)))
        \/ elem_of x (Poll.xfd (fst (Poll.build_fd_sets Examples.two_fds))) ->
        x < snd (Poll.build_fd_sets Examples.two_fds) + 1).
Proof.
  split; [exact two_fds_in_range|]. split; [reflexivity|].
  exact (proj1 (PollFacts.nfds_covers_every_descriptor Examples.two_fds
                  two_fds_in_range)).
Defined.

Lemma two_fds_write_set :
  Poll.in_range Examples.two_fds
  /\ (elem_of 3 (Poll.wfd (fst (Poll.build_fd_sets Examples.two_fds)))
      <-> exists p, In p Examples.two_fds /\ Poll.fd p = 3
                    /\ Z.land (Poll.events p) POLLOUT <> 0).
Proof.
  split; [exact two_fds_in_range|].
  exact (proj1 (proj2 (PollFacts.sets_hold_what_the_entries_ask_for
                         Examples.two_fds 3 two_fds_in_range))).
Defined.

Lemma two_fds_left_by_select :
  Poll.left_by_select (fst (Poll.build_fd_sets Examples.two_fds))
    Examples.only_3_writable.
Proof.
  split; [|split].
  - intros x H. apply elem_of_empty in H. destruct H.
  - intros x H. unfold Examples.only_3_writable in H. cbn [Poll.wfd] in H.
    apply elem_of_singleton in H. rewrite H.
    apply (proj1 (proj2 (PollFacts.built_sets_spec Examples.two_fds 3))).
    eexists. split; [left; reflexivity|]. split; [reflexivity|discriminate].
  - intros x H. apply elem_of_empty in H. destruct H.
Defined.

Lemma two_fds_revents :
  let p := {| Poll.fd := 3; Poll.events := 12; Poll.revents := 0 |} in
  Poll.in_range Examples.two_fds /\ NoDup (map Poll.fd Examples.two_fds)
  /\ In p Examples.two_fds
  /\ Z.land (Poll.revents (Poll.answer Examples.only_3_writable p))
       (Poll.events p)
     = Poll.revents (Poll.answer Examples.only_3_writable p).
Proof.
  intros p.
  assert (Hp : In p Examples.two_fds) by (left; reflexivity).
  split; [exact two_fds_in_range|]. split; [exact two_fds_distinct|].
  split; [exact Hp|].
  exact (proj1 (PollFacts.revents_within_events Examples.two_fds
                  Examples.only_3_writable p two_fds_in_range
                  two_fds_distinct two_fds_left_by_select Hp)).
Defined.

Lemma two_fds_all_ready :
  let p := {| Poll.fd := 3; Poll.events := 12; Poll.revents := 0 |} in
  Poll.in_range Examples.two_fds /\ NoDup (map Poll.fd Examples.two_fds)
  /\ In p Examples.two_fds
  /\ Poll.revents (Poll.answer (fst (Poll.build_fd_sets Examples.two_fds)) p)
     = Z.land (Poll.events p) (Z.lor (Z.lor POLLIN POLLOUT) POLLERR).
Proof.
  intros p.
  assert (Hp : In p Examples.two_fds) by (left; reflexivity).
  split; [exact two_fds_in_range|]. split; [exact two_fds_distinct|].
  split; [exact Hp|].
  exact (PollFacts.all_ready_returns_the_events Examples.two_fds p
           two_fds_in_range two_fds_distinct Hp).
Defined.

End ExtraWitnesses.
